(** * GlobalNewsFetcher: a shallow embedding of
      [internet_killer/core/news_fetcher.py] and [config/settings.py]

    The fetcher queries a headline API with a fixed list of
    configurations, reads a fixed list of RSS feeds, removes duplicates by
    url and writes one CSV and one JSON file named after the day.

    Conventions of the embedding:
    - a Python [str] is a [string]; one element of the string stands for
      one character of the [str], so [len] and slicing count elements;
    - values decoded from the API body are untyped in Python and are
      kept as [json] values here; every dynamic operation the source
      performs on them ([x[k]], [x.get], [x[:n]], [x + s], truth value,
      hashing) is a function into the exception monad [py];
    - the network, the disk and the clock are inputs of a run, collected
      in a [World]; what the run changes (the files and the list of
      network calls made) is the [State] threaded through the code;
    - [print] calls write to the console only and are left out, except
      where evaluating their argument can raise. *)

From Stdlib Require Import ZArith String Ascii List Lia.
From stdpp Require Import base option list gmap strings pretty.

Local Open Scope string_scope.
Local Open Scope list_scope.

Set Warnings "-register-all".

(** ** Python values and exceptions *)

Module Py.

(** The exception classes the fetcher can meet; all derive from
    [Exception]. *)
Inductive exn : Type :=
| KeyError | TypeError | AttributeError | IndexError
| RequestException | HTTPError | JSONDecodeError | FeedError | OSError.

(** A computation that returns or raises. *)
Inductive py (A : Type) : Type :=
| Return (a : A)
| Raise (e : exn).
Arguments Return {A} a.
Arguments Raise {A} e.

#[export] Instance py_ret : MRet py := fun A a => Return a.
#[export] Instance py_bind : MBind py := fun A B k c =>
  match c with
  | Return a => k a
  | Raise e => Raise e
  end.

(** What [json.loads] builds: [None], [bool], numbers, [str], [list]
    and [dict] (as its list of items, looked up by first match).
    Numbers are integers here; the fetcher only tests a number for
    zero or hashes it, every other operation on one raises. *)
Inductive json : Type :=
| JNull
| JBool (b : bool)
| JNum (n : Z)
| JStr (s : string)
| JArr (l : list json)
| JObj (kv : list (string * json)).

Fixpoint assoc (k : string) (kv : list (string * json)) : option json :=
  match kv with
  | [] => None
  | (k', v) :: rest => if decide (k' = k) then Some v else assoc k rest
  end.

(** [bool(v)] *)
Definition truthy (v : json) : bool :=
  match v with
  | JNull => false
  | JBool b => b
  | JNum n => negb (n =? 0)%Z
  | JStr s => match s with EmptyString => false | String _ _ => true end
  | JArr l => match l with [] => false | _ :: _ => true end
  | JObj kv => match kv with [] => false | _ :: _ => true end
  end.

(** [v[k]] for a string key [k]: only a [dict] accepts one. *)
Definition getitem (v : json) (k : string) : py json :=
  match v with
  | JObj kv => match assoc k kv with
               | Some x => Return x
               | None => Raise KeyError
               end
  | _ => Raise TypeError
  end.

(** [v.get(k, d)]: only a [dict] has the method. *)
Definition get (v : json) (k : string) (d : json) : py json :=
  match v with
  | JObj kv => Return (default d (assoc k kv))
  | _ => Raise AttributeError
  end.

(** [s[:n]] on a [str] *)
Fixpoint str_take (n : nat) (s : string) : string :=
  match n, s with
  | S n', String c s' => String c (str_take n' s')
  | _, _ => EmptyString
  end.

(** [v[:n]]: defined on [str] and [list]. *)
Definition slice_to (n : nat) (v : json) : py json :=
  match v with
  | JStr s => Return (JStr (str_take n s))
  | JArr l => Return (JArr (take n l))
  | _ => Raise TypeError
  end.

(** [v + s] for a [str] literal [s]: only [str + str] is defined. *)
Definition add_str (v : json) (s : string) : py string :=
  match v with
  | JStr a => Return (a +:+ s)
  | _ => Raise TypeError
  end.

(** [for x in v]: a [list] yields its elements, a [str] its
    characters, a [dict] its keys; the rest is not iterable. *)
Definition iter (v : json) : py (list json) :=
  match v with
  | JArr l => Return l
  | JStr s => Return ((fun c => JStr (String c EmptyString)) <$> list_ascii_of_string s)
  | JObj kv => Return ((fun p => JStr p.1) <$> kv)
  | _ => Raise TypeError
  end.

(** Keys of a [set]: the hashable values up to Python's [==], which
    identifies [True] with [1] and [False] with [0]. *)
Inductive hkey : Type :=
| HNone
| HNum (n : Z)
| HStr (s : string).

#[export] Instance hkey_eq_dec : EqDecision hkey.
Proof. solve_decision. Defined.

#[export] Instance hkey_countable : Countable hkey.
Proof.
  refine (inj_countable'
    (fun k => match k with
              | HNone => inl ()
              | HNum n => inr (inl n)
              | HStr s => inr (inr s)
              end)
    (fun x => match x with
              | inl _ => HNone
              | inr (inl n) => HNum n
              | inr (inr s) => HStr s
              end) _).
  by intros [].
Defined.

(** [hash(v)] as used by [v in seen]: [list] and [dict] are
    unhashable. *)
Definition hash_key (v : json) : py hkey :=
  match v with
  | JNull => Return HNone
  | JBool b => Return (HNum (if b then 1%Z else 0%Z))
  | JNum n => Return (HNum n)
  | JStr s => Return (HStr s)
  | JArr _ | JObj _ => Raise TypeError
  end.

(** [bool(s)] for an optional [str] such as [os.getenv] returns. *)
Definition truthy_opt (s : option string) : bool :=
  match s with
  | Some (String _ _) => true
  | _ => false
  end.

End Py.
Import Py.


(** ** config/settings.py *)

(** The [Settings] class: the key read from the environment
    ([os.getenv] gives [None] when the variable is unset) and the
    declared article cap. *)
Record Settings : Type := {
  NEWS_API_KEY : option string;
  MAX_NEWS_COUNT : Z
}.

(** ** Data of the fetcher *)

(** One entry of [countries_and_categories].  A key the dict does not
    have is [None]; for ["category"] the value [None] and a missing key
    are the same to [config.get("category")], the only access. *)
Module Config.
Record t : Type := mk {
  country : option string;
  category : option string;
  sources : option string;
  name : string
}.
End Config.

(** One entry of [rss_sources]. *)
Module RssConfig.
Record t : Type := mk {
  url : string;
  name : string;
  country : string
}.
End RssConfig.

(** An entry of a parsed feed as [feedparser] hands it over: every
    attribute may be missing; [content] is a list of dicts of which only
    the ['value'] item is read. *)
Module Entry.
Record t : Type := mk {
  title : option string;
  summary : option string;
  content : option (list (option string));
  link : option string;
  published : option string;
  author : option string
}.
End Entry.

(** The dict built for every collected article.  The fields copied from
    the API body keep whatever value the body had. *)
Module Article.
Record t : Type := mk {
  id : string;
  title : json;
  description : json;
  content : string;
  url : json;
  source_name : json;
  category : string;
  country : string;
  published_at : json;
  collected_at : string;
  author : json
}.
End Article.

(** The dict returned by [collect_all_news], by its ["status"]. *)
Inductive Result : Type :=
| already_exists (date : string)
| error (message : string)
| success (date : string) (total_articles : nat) (files : list string).

Definition status (r : Result) : string :=
  match r with
  | already_exists _ => "already_exists"
  | error _ => "error"
  | success _ _ _ => "success"
  end.

(** A value of the [params] dict of a request. *)
Inductive qval : Type :=
| QNone
| QStr (s : string)
| QInt (n : Z).

#[global] Instance qval_eq_dec : EqDecision qval.
Proof. solve_decision. Defined.

Definition qopt (s : option string) : qval :=
  match s with
  | Some x => QStr x
  | None => QNone
  end.

(** ** The world around a run *)

(** A call that leaves the process. *)
Inductive NetCall : Type :=
| HttpGet (url : string) (params : gmap string qval) (timeout : Z)
| FeedParse (url : string).

(** What [requests.get] returns. *)
Record Response : Type := {
  status_ok : bool;            (* is the status below 400 *)
  body : option json           (* the decoded body, if it is JSON *)
}.

(** What a file holds after the run wrote it: the data handed to
    [to_csv], the data handed to [json.dump], or the remains of a write
    that raised. *)
Inductive File : Type :=
| CsvFile (rows : list Article.t)
| JsonFile (collection_date collection_timestamp : string)
    (total_articles : nat) (articles : list Article.t)
| Truncated.

(** How a write ends: it completes, or it raises and either did or did
    not leave a file behind. *)
Inductive WriteReply : Type :=
| WriteOk
| WriteRaises (leaves_file : bool).

(** Where the clock is read: while building article number [k] of an
    API configuration or of a feed (the feed reads it twice per entry,
    the first time for the default of [published]), and while saving. *)
Inductive ClockPoint : Type :=
| AtApi (config_name : string) (k : nat)
| AtRssPublished (feed_name : string) (k : nat)
| AtRss (feed_name : string) (k : nat)
| AtSave.

(** The inputs of a run that the program does not control.  The
    replies of the network depend on how many calls were made before. *)
Record World : Type := {
  http : nat -> string -> gmap string qval -> option Response;
  feeds : nat -> string -> option (list Entry.t);
  disk : string -> WriteReply;
  now : ClockPoint -> string
}.

(** What a run changes: the files (by path) and the calls made. *)
Record State : Type := {
  fs : gmap string File;
  net_log : list NetCall
}.

(** A method body: it reads and changes the state and returns or
    raises. *)
Definition M (A : Type) : Type := State -> py A * State.

#[global] Instance M_ret : MRet M := fun A a st => (Return a, st).
#[global] Instance M_bind : MBind M := fun A B k c st =>
  match c st with
  | (Return a, st') => k a st'
  | (Raise e, st') => (Raise e, st')
  end.

Definition lift {A : Type} (c : py A) : M A := fun st => (c, st).

(** [try: body except Exception as e: handler] *)
Definition try_except {A : Type} (body : M A) (handler : exn -> M A) : M A :=
  fun st =>
    match body st with
    | (Return a, st') => (Return a, st')
    | (Raise e, st') => handler e st'
    end.

Definition record_call (c : NetCall) (st : State) : State :=
  {| fs := fs st; net_log := net_log st ++ [c] |}.

Definition path_exists (path : string) : M bool :=
  fun st => (Return (bool_decide (is_Some (fs st !! path))), st).

(** ** class GlobalNewsFetcher *)

Record GlobalNewsFetcher : Type := {
  api_key : option string;
  base_url : string;
  data_dir : string;
  today_str : string;
  csv_file : string;
  json_file : string;
  rss_sources : list RssConfig.t
}.

(** [__init__]; [today] is [date.today().strftime("%Y%m%d")].  Of the
    settings only [NEWS_API_KEY] is read.  [os.makedirs] creates a
    directory, which is not a file of the model. *)
Definition __init__ (settings : Settings) (today : string) : GlobalNewsFetcher :=
  let data_dir := "internet_killer/data" in
  {| api_key := NEWS_API_KEY settings;
     base_url := "https://newsapi.org/v2";
     data_dir := data_dir;
     today_str := today;
     csv_file := data_dir +:+ "/news_data_" +:+ today +:+ ".csv";
     json_file := data_dir +:+ "/news_data_" +:+ today +:+ ".json";
     rss_sources :=
       [ RssConfig.mk "https://feeds.yna.co.kr/news" "연합뉴스" "kr";
         RssConfig.mk "https://www.mk.co.kr/rss/30000001/" "매일경제" "kr";
         RssConfig.mk "http://news.chosun.com/site/data/rss/rss.xml" "조선일보" "kr";
         RssConfig.mk "http://feeds.bbci.co.uk/news/rss.xml" "BBC" "gb";
         RssConfig.mk "https://www.theguardian.com/world/rss" "Guardian" "gb";
         RssConfig.mk "http://rss.cnn.com/rss/edition.rss" "CNN" "us" ] |}.

(** The list [countries_and_categories] of [collect_all_news]. *)
Definition countries_and_categories : list Config.t :=
  [ Config.mk (Some "kr") None None "한국 전체";
    Config.mk (Some "kr") (Some "technology") None "한국 기술";
    Config.mk (Some "kr") (Some "business") None "한국 경제";
    Config.mk (Some "kr") (Some "entertainment") None "한국 연예";
    Config.mk (Some "us") None None "미국 전체";
    Config.mk (Some "us") (Some "technology") None "미국 기술";
    Config.mk (Some "us") (Some "business") None "미국 경제";
    Config.mk (Some "us") (Some "politics") None "미국 정치";
    Config.mk (Some "gb") None None "영국 전체";
    Config.mk (Some "gb") (Some "business") None "영국 경제";
    Config.mk (Some "gb") (Some "politics") None "영국 정치";
    Config.mk None None
      (Some "bbc-news,cnn,reuters,associated-press,techcrunch")
      "글로벌 주요 매체" ].

(** The [params] dict of [_fetch_news_by_config], lines 114-132. *)
Definition build_params (self : GlobalNewsFetcher) (config : Config.t)
  : py (gmap string qval) :=
  let params : gmap string qval :=
    <["pageSize" := QInt 20%Z]> (<["apiKey" := qopt (api_key self)]> ∅) in
  params ←
    (if decide (Config.country config = Some "kr") then
       Return (<["country" := QStr "kr"]> params)
     else if decide (Config.country config = Some "gb") then
       Return (<["language" := QStr "en"]> (<["country" := QStr "gb"]> params))
     else match Config.sources config with
          | Some srcs =>
              Return (<["language" := QStr "en"]> (<["sources" := QStr srcs]> params))
          | None =>
              match Config.country config with
              | Some c =>
                  Return (<["language" := QStr "en"]> (<["country" := QStr c]> params))
              | None => Raise KeyError
              end
          end);
  Return (if truthy_opt (Config.category config)
          then <["category" := qopt (Config.category config)]> params
          else params).

(** [article["title"] and article["description"]], as a condition:
    the second operand is evaluated only if the first is true. *)
Definition has_title_and_description (article : json) : py bool :=
  t ← getitem article "title";
  if truthy t then d ← getitem article "description"; Return (truthy d)
  else Return false.

(** [article.get("content", "")[:1000] + "..." if article.get("content") else ""] *)
Definition api_content (article : json) : py string :=
  c ← get article "content" JNull;
  if truthy c then
    c' ← get article "content" (JStr "");
    head ← slice_to 1000 c';
    add_str head "..."
  else Return "".

Section Fetcher.

Variable w : World.

(** The dict literal [processed_article] of [_fetch_news_by_config];
    [n] is [len(articles)]. *)
Definition api_article (config : Config.t) (n : nat) (article : json)
  : py Article.t :=
  title ← getitem article "title";
  description ← getitem article "description";
  content ← api_content article;
  url ← getitem article "url";
  source ← getitem article "source";
  source_name ← getitem source "name";
  published_at ← getitem article "publishedAt";
  author ← get article "author" (JStr "Unknown");
  Return
    {| Article.id := Config.name config +:+ "_" +:+ pretty n;
       Article.title := title;
       Article.description := description;
       Article.content := content;
       Article.url := url;
       Article.source_name := source_name;
       Article.category := Config.name config;
       Article.country := default "global" (Config.country config);
       Article.published_at := published_at;
       Article.collected_at := now w (AtApi (Config.name config) n);
       Article.author := author |}.

(** The loop [for article in ...: if ...: articles.append(...)]. *)
Fixpoint api_loop (config : Config.t) (raw : list json)
    (articles : list Article.t) : py (list Article.t) :=
  match raw with
  | [] => Return articles
  | article :: rest =>
      keep ← has_title_and_description article;
      if keep : bool then
        processed_article ← api_article config (length articles) article;
        api_loop config rest (articles ++ [processed_article])
      else api_loop config rest articles
  end.

(** [requests.get(url, params=params, timeout=...)]: the call is made,
    and it raises when no response arrives. *)
Definition requests_get (url : string) (params : gmap string qval) (timeout : Z)
  : M Response :=
  fun st =>
    (match http w (length (net_log st)) url params with
     | Some r => Return r
     | None => Raise RequestException
     end,
     record_call (HttpGet url params timeout) st).

Definition raise_for_status (r : Response) : py unit :=
  if status_ok r then Return () else Raise HTTPError.

Definition response_json (r : Response) : py json :=
  match body r with
  | Some data => Return data
  | None => Raise JSONDecodeError
  end.

(** The [try] block of [_fetch_news_by_config]. *)
Definition fetch_news_body (self : GlobalNewsFetcher) (config : Config.t)
  : M (list Article.t) :=
  let url := base_url self +:+ "/top-headlines" in
  params ← lift (build_params self config);
  response ← requests_get url params 10%Z;
  _ ← lift (raise_for_status response);
  data ← lift (response_json response);
  _ ← lift (get data "totalResults" (JNum 0%Z));
  raw ← lift (l ← get data "articles" (JArr []); iter l);
  lift (api_loop config raw []).

Definition _fetch_news_by_config (self : GlobalNewsFetcher) (config : Config.t)
  : M (list Article.t) :=
  try_except (fetch_news_body self config) (fun _ => mret []).

(** [getattr(entry, name)] without a default. *)
Definition getattr {A : Type} (field : option A) : py A :=
  match field with
  | Some x => Return x
  | None => Raise AttributeError
  end.

(** [getattr(entry, 'content', [{}])[0].get('value', '')[:1000] + "..."
    if hasattr(entry, 'content') else ""] *)
Definition rss_content (entry : Entry.t) : py string :=
  match Entry.content entry with
  | Some items =>
      match items with
      | first :: _ => Return (str_take 1000 (default "" first) +:+ "...")
      | [] => Raise IndexError
      end
  | None => Return ""
  end.

(** The dict literal [processed_article] of [_fetch_rss_news]; [n] is
    [len(articles)].  The default of [getattr(entry, 'summary', ...)] is
    [entry.title], evaluated before the call. *)
Definition rss_article (rss_config : RssConfig.t) (n : nat) (entry : Entry.t)
  : py Article.t :=
  title ← getattr (Entry.title entry);
  fallback ← getattr (Entry.title entry);
  let description := str_take 200 (default fallback (Entry.summary entry)) +:+ "..." in
  content ← rss_content entry;
  url ← getattr (Entry.link entry);
  let published_default := now w (AtRssPublished (RssConfig.name rss_config) n) in
  Return
    {| Article.id := RssConfig.name rss_config +:+ "_" +:+ pretty n;
       Article.title := JStr title;
       Article.description := JStr description;
       Article.content := content;
       Article.url := JStr url;
       Article.source_name := JStr (RssConfig.name rss_config);
       Article.category := RssConfig.name rss_config +:+ " RSS";
       Article.country := RssConfig.country rss_config;
       Article.published_at := JStr (default published_default (Entry.published entry));
       Article.collected_at := now w (AtRss (RssConfig.name rss_config) n);
       Article.author := JStr (default "Unknown" (Entry.author entry)) |}.

(** The loop [for entry in ...: articles.append(...)]. *)
Fixpoint rss_loop (rss_config : RssConfig.t) (entries : list Entry.t)
    (articles : list Article.t) : py (list Article.t) :=
  match entries with
  | [] => Return articles
  | entry :: rest =>
      processed_article ← rss_article rss_config (length articles) entry;
      rss_loop rss_config rest (articles ++ [processed_article])
  end.

(** [feedparser.parse(url)] followed by [.entries]. *)
Definition feedparser_parse (url : string) : M (list Entry.t) :=
  fun st =>
    (match feeds w (length (net_log st)) url with
     | Some entries => Return entries
     | None => Raise FeedError
     end,
     record_call (FeedParse url) st).

(** The [try] block of [_fetch_rss_news]. *)
Definition fetch_rss_body (rss_config : RssConfig.t) : M (list Article.t) :=
  entries ← feedparser_parse (RssConfig.url rss_config);
  lift (rss_loop rss_config (take 10 entries) []).

Definition _fetch_rss_news (self : GlobalNewsFetcher) (rss_config : RssConfig.t)
  : M (list Article.t) :=
  try_except (fetch_rss_body rss_config) (fun _ => mret []).

(** The loop of [_remove_duplicates]. *)
Fixpoint dedup_loop (articles : list Article.t) (seen_urls : gset hkey)
    (unique_articles : list Article.t) : py (list Article.t) :=
  match articles with
  | [] => Return unique_articles
  | article :: rest =>
      k ← hash_key (Article.url article);
      if decide (k ∈ seen_urls) then dedup_loop rest seen_urls unique_articles
      else dedup_loop rest ({[k]} ∪ seen_urls) (unique_articles ++ [article])
  end.

Definition _remove_duplicates (articles : list Article.t) : py (list Article.t) :=
  dedup_loop articles ∅ [].

(** A write to [path]: [df.to_csv(path, ...)], or [open(path, 'w')]
    with [json.dump]. *)
Definition write_file (path : string) (data : File) : M unit :=
  fun st =>
    match disk w path with
    | WriteOk =>
        (Return (), {| fs := <[path := data]> (fs st); net_log := net_log st |})
    | WriteRaises leaves_file =>
        (Raise OSError,
         {| fs := if leaves_file then <[path := Truncated]> (fs st) else fs st;
            net_log := net_log st |})
    end.

Definition _save_to_files (self : GlobalNewsFetcher) (articles : list Article.t)
  : M unit :=
  try_except
    (_ ← write_file (csv_file self) (CsvFile articles);
     let json_data :=
       JsonFile (today_str self) (now w AtSave) (length articles) articles in
     write_file (json_file self) json_data)
    (fun _ => mret ()).

Definition check_today_data_exists (self : GlobalNewsFetcher) : M bool :=
  c ← path_exists (csv_file self);
  if c : bool then path_exists (json_file self) else mret false.

(** The two loops [for config in ...: all_articles.extend(fetch(config))]. *)
Fixpoint for_extend {C : Type} (fetch : C -> M (list Article.t))
    (configs : list C) (all_articles : list Article.t) : M (list Article.t) :=
  match configs with
  | [] => mret all_articles
  | config :: rest =>
      articles ← fetch config;
      for_extend fetch rest (all_articles ++ articles)
  end.

Definition collect_all_news (self : GlobalNewsFetcher) (force_update : bool)
  : M Result :=
  present ← check_today_data_exists self;
  if present && negb force_update then
    mret (already_exists (today_str self))
  else if negb (truthy_opt (api_key self)) then
    mret (error "API key missing")
  else
    all_articles ← for_extend (_fetch_news_by_config self) countries_and_categories [];
    all_articles ← for_extend (_fetch_rss_news self) (rss_sources self) all_articles;
    unique_articles ← lift (_remove_duplicates all_articles);
    _ ← _save_to_files self unique_articles;
    mret (success (today_str self) (length unique_articles)
            [csv_file self; json_file self]).

End Fetcher.

(** ** Vocabulary of the statements *)

(** The key under which [_remove_duplicates] files an article, when its
    url is hashable. *)
Definition url_key (a : Article.t) : option hkey :=
  match hash_key (Article.url a) with
  | Return k => Some k
  | Raise _ => None
  end.

(** [first_wins all unique]: for every article of [all], the first
    article of [all] filed under the same key is in [unique]. *)
Definition first_wins (all unique : list Article.t) : Prop :=
  ∀ a, a ∈ all →
    ∃ l1 b l2, all = l1 ++ b :: l2 ∧ url_key b = url_key a ∧
      Forall (fun c => url_key c ≠ url_key a) l1 ∧ b ∈ unique.

(** [runs_each fetch configs st results st']: calling [fetch] on each
    element of [configs] in order, from state [st], returns the lists
    [results] in that order and ends in [st']. *)
Inductive runs_each {C : Type} (fetch : C -> M (list Article.t))
  : list C -> State -> list (list Article.t) -> State -> Prop :=
| runs_nil st : runs_each fetch [] st [] st
| runs_cons c cs st articles st1 results st2 :
    fetch c st = (Return articles, st1) ->
    runs_each fetch cs st1 results st2 ->
    runs_each fetch (c :: cs) st (articles :: results) st2.

(** Both output files of [self] exist in [st]. *)
Definition today_data (self : GlobalNewsFetcher) (st : State) : Prop :=
  is_Some (fs st !! csv_file self) ∧ is_Some (fs st !! json_file self).

(** The run is not cut short by the two guards of [collect_all_news]. *)
Definition proceeds (self : GlobalNewsFetcher) (force_update : bool) (st : State)
  : Prop :=
  (force_update = true ∨ ¬ today_data self st) ∧ truthy_opt (api_key self) = true.

(** The calls a fetch makes do not depend on the replies. *)
Definition api_calls (self : GlobalNewsFetcher) (config : Config.t) : list NetCall :=
  match build_params self config with
  | Return params => [HttpGet (base_url self +:+ "/top-headlines") params 10%Z]
  | Raise _ => []
  end.

Definition after_calls (st : State) (calls : list NetCall) : State :=
  {| fs := fs st; net_log := net_log st ++ calls |}.

(** Every call of a run that is not cut short, in order. *)
Definition expected_calls (self : GlobalNewsFetcher) : list NetCall :=
  concat (api_calls self <$> countries_and_categories) ++
  concat ((fun r => [FeedParse (RssConfig.url r)]) <$> rss_sources self).

(** [blank r]: the field read by [r] is missing or its value is false
    as a condition ([None], the empty string, ...). *)
Definition blank (r : py json) : Prop := ∀ v, r = Return v -> truthy v = false.

(** The entry with its summary replaced. *)
Definition set_summary (s : option string) (entry : Entry.t) : Entry.t :=
  Entry.mk (Entry.title entry) s (Entry.content entry) (Entry.link entry)
    (Entry.published entry) (Entry.author entry).

(** The parameters besides [apiKey] and [pageSize]. *)
Definition rest_params (params : gmap string qval) : gmap string qval :=
  delete "apiKey" (delete "pageSize" params).

Definition with_category (cat : option string) (m : gmap string qval)
  : gmap string qval :=
  match cat with
  | Some c => <["category" := QStr c]> m
  | None => m
  end.

(** The three shapes the specification lists: a country with an
    optional category; country gb with language en and an optional
    category; a source list with language en. *)
Definition stated_shape (rest : gmap string qval) : Prop :=
  (∃ c cat, rest = with_category cat (<["country" := QStr c]> ∅)) ∨
  (∃ cat, rest = with_category cat
                   (<["language" := QStr "en"]> (<["country" := QStr "gb"]> ∅))) ∨
  (∃ srcs, rest = <["language" := QStr "en"]> (<["sources" := QStr srcs]> ∅)).

(** The shapes the code produces: country kr with an optional category;
    country gb or us with language en and an optional category; a source
    list with language en. *)
Definition built_shape (rest : gmap string qval) : Prop :=
  (∃ cat, rest = with_category cat (<["country" := QStr "kr"]> ∅)) ∨
  (∃ c cat, (c = "gb" ∨ c = "us") ∧
     rest = with_category cat
              (<["language" := QStr "en"]> (<["country" := QStr c]> ∅))) ∨
  (∃ srcs, rest = <["language" := QStr "en"]> (<["sources" := QStr srcs]> ∅)).

(** The eighteen sources of a run, in the order they are fetched. *)
Definition sources (self : GlobalNewsFetcher) : list (Config.t + RssConfig.t) :=
  (inl <$> countries_and_categories) ++ (inr <$> rss_sources self).

(** The [try] block of the fetch of a source, and the whole fetch. *)
Definition source_body (w : World) (self : GlobalNewsFetcher)
    (src : Config.t + RssConfig.t) : M (list Article.t) :=
  match src with
  | inl config => fetch_news_body w self config
  | inr rss_config => fetch_rss_body w rss_config
  end.

Definition fetch_source (w : World) (self : GlobalNewsFetcher)
    (src : Config.t + RssConfig.t) : M (list Article.t) :=
  match src with
  | inl config => _fetch_news_by_config w self config
  | inr rss_config => _fetch_rss_news w self rss_config
  end.

Definition source_calls (self : GlobalNewsFetcher) (src : Config.t + RssConfig.t)
  : list NetCall :=
  match src with
  | inl config => api_calls self config
  | inr rss_config => [FeedParse (RssConfig.url rss_config)]
  end.

(** An entry can be built when it has a title and a link and its
    content, if any, is not the empty list. *)
Definition buildable (entry : Entry.t) : Prop :=
  is_Some (Entry.title entry) ∧ is_Some (Entry.link entry) ∧
  Entry.content entry ≠ Some [].

(** ** A small world to run the code in *)

Definition sample_item (title description url : string) : json :=
  JObj [("title", JStr title); ("description", JStr description);
        ("url", JStr url); ("source", JObj [("name", JStr "Wire")]);
        ("publishedAt", JStr "2024-05-01T08:00:00Z")].

(** Every API call answers with the same two articles, which share
    their url; every feed has one entry, again with that url. *)
Definition sample_body : json :=
  JObj [("totalResults", JNum 2);
        ("articles", JArr [sample_item "First" "one" "https://a.example/1";
                           sample_item "Second" "two" "https://a.example/1"])].

Definition sample_entry : Entry.t :=
  Entry.mk (Some "Feed item") None None (Some "https://a.example/1") None None.

Definition sample_world : World :=
  {| http := fun _ _ _ => Some {| status_ok := true; body := Some sample_body |};
     feeds := fun _ _ => Some [sample_entry];
     disk := fun _ => WriteOk;
     now := fun _ => "2024-05-01T09:00:00" |}.

Definition sample_settings : Settings :=
  {| NEWS_API_KEY := Some "key"; MAX_NEWS_COUNT := 100 |}.

Definition sample_fetcher : GlobalNewsFetcher := __init__ sample_settings "20240501".

Definition empty_state : State := {| fs := ∅; net_log := [] |}.

(** A disk on which every write raises before a file is created. *)
Definition readonly_world : World :=
  {| http := http sample_world;
     feeds := feeds sample_world;
     disk := fun _ => WriteRaises false;
     now := now sample_world |}.

(** A string of [n] copies of [c], to build long contents. *)
Fixpoint str_repeat (n : nat) (c : ascii) : string :=
  match n with
  | O => EmptyString
  | S n' => String c (str_repeat n' c)
  end.

Definition long_item : json :=
  JObj [("title", JStr "Long read"); ("description", JStr "A long text");
        ("content", JStr (str_repeat 1200 "a"));
        ("url", JStr "https://a.example/long");
        ("source", JObj [("name", JStr "Wire")]);
        ("publishedAt", JStr "2024-05-01T08:00:00Z")].

Definition feed_config : RssConfig.t :=
  RssConfig.mk "http://feeds.bbci.co.uk/news/rss.xml" "BBC" "gb".

Definition us_config : Config.t := Config.mk (Some "us") None None "미국 전체".

(** A body whose second article has no ["url"]: building it raises
    [KeyError]. *)
Definition malformed_body : json :=
  JObj [("articles",
         JArr [sample_item "Good" "fine" "https://a.example/7";
               JObj [("title", JStr "No link"); ("description", JStr "lost")]])].

Definition empty_body : json := JObj [("articles", JArr [])].

(** [sample_world] with the reply to call number 3 replaced. *)
Definition with_reply_3 (data : json) : World :=
  {| http := fun m url params =>
       if Nat.eqb m 3 then Some {| status_ok := true; body := Some data |}
       else http sample_world m url params;
     feeds := feeds sample_world;
     disk := disk sample_world;
     now := now sample_world |}.

(** A configuration with a country other than kr and gb and a source
    list, and one with neither. *)
Definition mixed_config : Config.t :=
  Config.mk (Some "us") None (Some "bbc-news") "mixed".

Definition nowhere_config : Config.t := Config.mk None None None "nowhere".

(** [sample_world] with every API call answered by [data]. *)
Definition reply_world (data : json) : World :=
  {| http := fun _ _ _ => Some {| status_ok := true; body := Some data |};
     feeds := feeds sample_world;
     disk := disk sample_world;
     now := now sample_world |}.

(** [sample_world] with every feed holding [entries]. *)
Definition feed_world (entries : list Entry.t) : World :=
  {| http := http sample_world;
     feeds := fun _ _ => Some entries;
     disk := disk sample_world;
     now := now sample_world |}.

(** An entry whose content is the empty list. *)
Definition hollow_entry : Entry.t :=
  Entry.mk (Some "Hollow") (Some "text") (Some [])
    (Some "https://a.example/h") None None.

(** A body with one article whose url is a dict. *)
Definition unhashable_body : json :=
  JObj [("articles",
         JArr [JObj [("title", JStr "Odd"); ("description", JStr "odd url");
                     ("url", JObj [("href", JStr "https://a.example/o")]);
                     ("source", JObj [("name", JStr "Wire")]);
                     ("publishedAt", JStr "2024-05-01T08:00:00Z")]])].

(** A disk on which the CSV of [sample_fetcher] can be written and
    every other write raises before a file is created. *)
Definition csv_only_world : World :=
  {| http := http sample_world;
     feeds := feeds sample_world;
     disk := fun path =>
       if decide (path = csv_file sample_fetcher) then WriteOk
       else WriteRaises false;
     now := now sample_world |}.

(** Both files of the day are there, and a third one. *)
Definition stale_state : State :=
  {| fs := <[csv_file sample_fetcher := CsvFile []]>
             (<[json_file sample_fetcher := JsonFile "20240501" "early" 0 []]>
                (<["notes.txt" := Truncated]> ∅));
     net_log := [] |}.

(** An article with a short content. *)
Definition short_item : json :=
  JObj [("title", JStr "Short read"); ("description", JStr "A short text");
        ("content", JStr "abc"); ("url", JStr "https://a.example/short");
        ("source", JObj [("name", JStr "Wire")]);
        ("publishedAt", JStr "2024-05-01T08:00:00Z")].

(** The same url as the API gave it and as a feed gave it. *)
Definition api_copy : Article.t :=
  Article.mk "us_0" (JStr "First") (JStr "one") "" (JStr "https://a.example/1")
    (JStr "Wire") "us" "us" (JStr "2024-05-01T08:00:00Z") "2024-05-01T09:00:00"
    (JStr "Unknown").

Definition feed_copy : Article.t :=
  Article.mk "BBC_0" (JStr "Feed item") (JStr "Feed item...") ""
    (JStr "https://a.example/1") (JStr "BBC") "BBC RSS" "gb"
    (JStr "2024-05-01T09:00:00") "2024-05-01T09:00:00" (JStr "Unknown").

(** An entry whose first content item has no value. *)
Definition valueless_entry : Entry.t :=
  Entry.mk (Some "Bare") None (Some [None; Some "second"])
    (Some "https://a.example/b") None None.

(** ** The code on concrete inputs *)

Example params_kr :
  build_params sample_fetcher (Config.mk (Some "kr") (Some "business") None "kr") =
  Return (<["category" := QStr "business"]>
            (<["country" := QStr "kr"]>
               (<["pageSize" := QInt 20]> (<["apiKey" := QStr "key"]> ∅)))).
Proof. reflexivity. Qed.

Example params_us :
  build_params sample_fetcher us_config =
  Return (<["language" := QStr "en"]>
            (<["country" := QStr "us"]>
               (<["pageSize" := QInt 20]> (<["apiKey" := QStr "key"]> ∅)))).
Proof. reflexivity. Qed.

Example params_without_country_or_sources :
  build_params sample_fetcher (Config.mk None None None "nowhere") = Raise KeyError.
Proof. reflexivity. Qed.

(** Short content gets the marker too; an empty or missing one stays
    empty; a list raises. *)
Example content_short :
  api_content (JObj [("content", JStr "abc")]) = Return "abc...".
Proof. reflexivity. Qed.

Example content_null : api_content (JObj [("content", JNull)]) = Return "".
Proof. reflexivity. Qed.

Example content_list :
  api_content (JObj [("content", JArr [JStr "abc"])]) = Raise TypeError.
Proof. reflexivity. Qed.

(** A title that is false as a condition hides a missing description. *)
Example empty_title_first :
  has_title_and_description (JObj [("title", JStr "")]) = Return false.
Proof. reflexivity. Qed.

Example missing_description :
  has_title_and_description (JObj [("title", JStr "t")]) = Raise KeyError.
Proof. reflexivity. Qed.

(** [True] and [1] are the same key; a [dict] is no key at all. *)
Example dedup_true_one :
  url_key <$> [Article.mk "a" JNull JNull "" (JBool true) JNull "" "" JNull "" JNull;
               Article.mk "b" JNull JNull "" (JNum 1) JNull "" "" JNull "" JNull]
  = [Some (HNum 1); Some (HNum 1)].
Proof. reflexivity. Qed.

Example dedup_unhashable :
  _remove_duplicates
    [Article.mk "a" JNull JNull "" (JObj []) JNull "" "" JNull "" JNull]
  = Raise TypeError.
Proof. reflexivity. Qed.

(** The sample run: 36 fetched articles share one url, one is kept;
    eighteen calls are made and both files are written. *)
Example sample_run :
  (collect_all_news sample_world sample_fetcher false empty_state).1 =
    Return (success "20240501" 1
              ["internet_killer/data/news_data_20240501.csv";
               "internet_killer/data/news_data_20240501.json"]) ∧
  length (net_log (collect_all_news sample_world sample_fetcher false empty_state).2)
    = 18%nat ∧
  dom (fs (collect_all_news sample_world sample_fetcher false empty_state).2) =
    {[ "internet_killer/data/news_data_20240501.csv";
       "internet_killer/data/news_data_20240501.json" ]}.
Proof. vm_compute. repeat split. Qed.

(** ** Facts about the monad, the fetches and the loops *)

Ltac unfold_M :=
  unfold mbind, mret, M_bind, M_ret, py_bind, py_ret, lift, try_except in *.

Lemma py_bind_Return {A B : Type} (c : py A) (k : A -> py B) (b : B) :
  c ≫= k = Return b -> ∃ a, c = Return a ∧ k a = Return b.
Proof. destruct c as [a|e]; [exists a; auto | discriminate]. Qed.

Lemma check_today_data_exists_spec self st :
  check_today_data_exists self st =
    (Return (bool_decide (today_data self st)), st).
Proof.
  unfold check_today_data_exists, path_exists, today_data. unfold_M.
  repeat case_bool_decide; try reflexivity; tauto.
Qed.

Ltac destruct_inner :=
  match goal with
  | |- context [match ?x with _ => _ end] =>
      lazymatch x with
      | context [match _ with _ => _ end] => fail
      | _ => destruct x eqn:?
      end
  end.

Lemma after_calls_nil st : after_calls st [] = st.
Proof. destruct st. unfold after_calls. simpl. by rewrite app_nil_r. Qed.

Lemma fetch_news_body_state w self config st :
  (fetch_news_body w self config st).2 = after_calls st (api_calls self config).
Proof.
  unfold fetch_news_body, requests_get, api_calls. unfold_M.
  destruct (build_params self config) as [params|]; simpl;
    [|by rewrite after_calls_nil].
  repeat (destruct_inner; simpl); reflexivity.
Qed.

Lemma fetch_rss_body_state w rss_config st :
  (fetch_rss_body w rss_config st).2 =
    after_calls st [FeedParse (RssConfig.url rss_config)].
Proof.
  unfold fetch_rss_body, feedparser_parse. unfold_M.
  repeat (destruct_inner; simpl); reflexivity.
Qed.

Lemma try_except_nil (body : M (list Article.t)) st :
  try_except body (fun _ => mret []) st =
    (Return (match (body st).1 with Return l => l | Raise _ => [] end), (body st).2).
Proof. unfold try_except. destruct (body st) as [[l|e] st']; reflexivity. Qed.

(** A fetch never raises and never touches the files. *)
Lemma _fetch_news_by_config_returns w self config st :
  ∃ articles, _fetch_news_by_config w self config st =
    (Return articles, after_calls st (api_calls self config)).
Proof.
  unfold _fetch_news_by_config. rewrite try_except_nil, fetch_news_body_state.
  eauto.
Qed.

Lemma _fetch_rss_news_returns w self rss_config st :
  ∃ articles, _fetch_rss_news w self rss_config st =
    (Return articles, after_calls st [FeedParse (RssConfig.url rss_config)]).
Proof.
  unfold _fetch_rss_news. rewrite try_except_nil, fetch_rss_body_state. eauto.
Qed.

Lemma runs_each_total {C : Type} (fetch : C -> M (list Article.t))
    (calls : C -> list NetCall) :
  (∀ c st, ∃ articles, fetch c st = (Return articles, after_calls st (calls c))) ->
  ∀ configs st, ∃ results,
    runs_each fetch configs st results (after_calls st (concat (calls <$> configs))).
Proof.
  intros Hf configs. induction configs as [|c cs IH]; intros st; simpl.
  - exists []. rewrite after_calls_nil. constructor.
  - destruct (Hf c st) as (articles & E).
    destruct (IH (after_calls st (calls c))) as (results & R).
    exists (articles :: results). econstructor; [exact E|].
    unfold after_calls in *. simpl in *. by rewrite <- app_assoc in R.
Qed.

Lemma for_extend_runs {C : Type} (fetch : C -> M (list Article.t))
    configs st results st' :
  runs_each fetch configs st results st' ->
  ∀ acc, for_extend fetch configs acc st = (Return (acc ++ concat results), st').
Proof.
  induction 1 as [st|c cs st articles st1 results st2 E R IH]; intros acc; simpl.
  - by rewrite app_nil_r.
  - unfold_M. rewrite E, IH. by rewrite <- app_assoc.
Qed.

(** *** The loop of [_remove_duplicates]

    [pre] is the part of the input already visited.  The loop keeps:
    [seen_urls] holds exactly the keys of [unique_articles], these keys
    are pairwise different, [unique_articles] is [pre] with some
    elements left out, and the first article of [pre] under any key is
    in [unique_articles]. *)

Lemma url_key_Return a k : hash_key (Article.url a) = Return k -> url_key a = Some k.
Proof. unfold url_key. by intros ->. Qed.

Lemma first_wins_snoc_seen pre unique article b :
  first_wins pre unique -> unique `sublist_of` pre ->
  b ∈ unique -> url_key b = url_key article ->
  first_wins (pre ++ [article]) unique.
Proof.
  intros Hfw Hsub Hb Hk a Ha.
  assert (∃ a', a' ∈ pre ∧ url_key a' = url_key a) as (a' & Ha' & Hk').
  { apply elem_of_app in Ha as [Ha|Ha]; [by eauto|].
    apply list_elem_of_singleton in Ha as ->.
    exists b. split; [by eapply elem_of_sublist | done]. }
  destruct (Hfw a' Ha') as (l1 & c & l2 & -> & Hc & Hl1 & Hin).
  exists l1, c, (l2 ++ [article]). rewrite <- Hk'.
  repeat split; try done. by rewrite <- app_assoc.
Qed.

Lemma first_wins_snoc_new pre unique article :
  first_wins pre unique ->
  (∀ b, b ∈ unique -> url_key b ≠ url_key article) ->
  first_wins (pre ++ [article]) (unique ++ [article]).
Proof.
  intros Hfw Hnew a Ha. apply elem_of_app in Ha as [Ha|Ha].
  - destruct (Hfw a Ha) as (l1 & c & l2 & -> & Hc & Hl1 & Hin).
    exists l1, c, (l2 ++ [article]).
    repeat split; try done; [by rewrite <- app_assoc | apply elem_of_app; by left].
  - apply list_elem_of_singleton in Ha as ->.
    exists pre, article, []. repeat split; try done.
    + apply Forall_forall. intros c Hc Heq.
      destruct (Hfw c Hc) as (l1 & b & l2 & _ & Hb & _ & Hin).
      apply (Hnew b Hin). congruence.
    + apply elem_of_app. right. by apply list_elem_of_singleton.
Qed.

Lemma dedup_loop_spec rest : ∀ pre seen_urls unique out,
  dedup_loop rest seen_urls unique = Return out ->
  (∀ k, k ∈ seen_urls ↔ ∃ b, b ∈ unique ∧ url_key b = Some k) ->
  NoDup (url_key <$> unique) ->
  unique `sublist_of` pre ->
  Forall (fun a => is_Some (url_key a)) pre ->
  first_wins pre unique ->
  NoDup (url_key <$> out) ∧ out `sublist_of` pre ++ rest ∧
  Forall (fun a => is_Some (url_key a)) (pre ++ rest) ∧
  first_wins (pre ++ rest) out.
Proof.
  induction rest as [|article rest IH]; intros pre seen unique out Hrun Hseen Hnd Hsub Hall Hfw.
  - simpl in Hrun. injection Hrun as <-. by rewrite app_nil_r.
  - simpl in Hrun. apply py_bind_Return in Hrun as (k & Hk & Hrun).
    pose proof (url_key_Return _ _ Hk) as Hkey.
    replace (pre ++ article :: rest) with ((pre ++ [article]) ++ rest)
      by (by rewrite <- app_assoc).
    assert (Forall (fun a => is_Some (url_key a)) (pre ++ [article])) as Hall'.
    { apply Forall_app. split; [done|]. apply Forall_singleton. rewrite Hkey. eauto. }
    destruct (decide (k ∈ seen)) as [Hin|Hout].
    + apply Hseen in Hin as (b & Hb & Hbk).
      apply (IH (pre ++ [article]) seen unique out Hrun); try done.
      * by apply sublist_inserts_r.
      * eapply first_wins_snoc_seen; eauto. congruence.
    + assert (∀ b, b ∈ unique -> url_key b ≠ url_key article) as Hnew.
      { intros b Hb Heq. apply Hout, Hseen. exists b. split; [done | congruence]. }
      apply (IH (pre ++ [article]) ({[k]} ∪ seen) (unique ++ [article]) out Hrun).
      * intros k'. rewrite elem_of_union, elem_of_singleton, Hseen. split.
        -- intros [->|(b & Hb & Hbk)].
           ++ exists article. split; [|done]. apply elem_of_app. right.
              by apply list_elem_of_singleton.
           ++ exists b. split; [|done]. apply elem_of_app. by left.
        -- intros (b & Hb & Hbk). apply elem_of_app in Hb as [Hb|Hb]; [by eauto|].
           apply list_elem_of_singleton in Hb as ->. left. congruence.
      * rewrite fmap_app. apply NoDup_app. repeat split; [done| |apply NoDup_singleton].
        intros x Hx Hx'. apply list_elem_of_singleton in Hx' as ->.
        apply list_elem_of_fmap in Hx as (b & Hb1 & Hb2). by apply (Hnew b).
      * by apply sublist_app.
      * done.
      * by apply first_wins_snoc_new.
Qed.

(** [_remove_duplicates] returns as soon as every url is hashable. *)
Lemma dedup_loop_returns rest : ∀ seen_urls unique,
  Forall (fun a => is_Some (url_key a)) rest ->
  ∃ out, dedup_loop rest seen_urls unique = Return out.
Proof.
  induction rest as [|article rest IH]; intros seen unique Hall; simpl; [by eauto|].
  apply Forall_cons in Hall as [[k Hk] Hall]. unfold url_key in Hk.
  destruct (hash_key (Article.url article)) as [k'|]; [|done]. simpl.
  destruct (decide (k' ∈ seen)); by apply IH.
Qed.

(** *** Saving and the whole run *)

(** [_save_to_files] never raises and makes no call; the files it
    leaves depend on how the two writes end. *)
Lemma _save_to_files_spec w self articles st :
  ∃ st', _save_to_files w self articles st = (Return (), st') ∧
    net_log st' = net_log st ∧
    match disk w (csv_file self), disk w (json_file self) with
    | WriteOk, WriteOk =>
        fs st' = <[json_file self :=
                     JsonFile (today_str self) (now w AtSave) (length articles) articles]>
                   (<[csv_file self := CsvFile articles]> (fs st))
    | WriteOk, WriteRaises leaves =>
        fs st' = if leaves
                 then <[json_file self := Truncated]>
                        (<[csv_file self := CsvFile articles]> (fs st))
                 else <[csv_file self := CsvFile articles]> (fs st)
    | WriteRaises leaves, _ =>
        fs st' = if leaves then <[csv_file self := Truncated]> (fs st) else fs st
    end.
Proof.
  unfold _save_to_files, write_file. unfold_M.
  destruct (disk w (csv_file self)) as [|l1]; simpl.
  - destruct (disk w (json_file self)) as [|l2]; simpl; eauto.
  - eauto.
Qed.

Lemma guards_pass self force_update st :
  proceeds self force_update st ->
  bool_decide (today_data self st) && negb force_update = false ∧
  negb (truthy_opt (api_key self)) = false.
Proof.
  intros [[-> | Hno] ->]; split; try done.
  - by rewrite andb_false_r.
  - by rewrite bool_decide_eq_false_2.
Qed.

(** A run that passes the guards fetches every source in order, removes
    the duplicates of the concatenation and saves what is left. *)
Lemma collect_all_news_run w self force_update st :
  proceeds self force_update st ->
  ∃ per_config per_feed st1,
    let st2 := after_calls st (expected_calls self) in
    runs_each (_fetch_news_by_config w self) countries_and_categories st per_config st1 ∧
    runs_each (_fetch_rss_news w self) (rss_sources self) st1 per_feed st2 ∧
    collect_all_news w self force_update st =
      match _remove_duplicates (concat per_config ++ concat per_feed) with
      | Return unique =>
          (Return (success (today_str self) (length unique)
                     [csv_file self; json_file self]),
           (_save_to_files w self unique st2).2)
      | Raise e => (Raise e, st2)
      end.
Proof.
  intros Hgo. apply guards_pass in Hgo as [Hg1 Hg2].
  destruct (runs_each_total (_fetch_news_by_config w self) (api_calls self)
              (_fetch_news_by_config_returns w self) countries_and_categories st)
    as (per_config & R1).
  set (st1 := after_calls st (concat (api_calls self <$> countries_and_categories))) in *.
  destruct (runs_each_total (_fetch_rss_news w self)
              (fun r => [FeedParse (RssConfig.url r)])
              (_fetch_rss_news_returns w self) (rss_sources self) st1)
    as (per_feed & R2).
  assert (after_calls st1
            (concat ((fun r => [FeedParse (RssConfig.url r)]) <$> rss_sources self))
          = after_calls st (expected_calls self)) as Est.
  { unfold st1, after_calls, expected_calls. cbn [fs net_log]. by rewrite app_assoc. }
  rewrite Est in R2.
  exists per_config, per_feed, st1. simpl. split; [done|]. split; [done|].
  unfold collect_all_news. unfold_M.
  rewrite check_today_data_exists_spec, Hg1, Hg2.
  rewrite (for_extend_runs _ _ _ _ _ R1), (for_extend_runs _ _ _ _ _ R2). simpl.
  destruct (_remove_duplicates _) as [unique|e]; [|done].
  destruct (_save_to_files_spec w self unique (after_calls st (expected_calls self)))
    as (st' & -> & _). done.
Qed.

Lemma collect_all_news_already_exists w self st :
  today_data self st ->
  collect_all_news w self false st = (Return (already_exists (today_str self)), st).
Proof.
  intros Hd. unfold collect_all_news. unfold_M.
  rewrite check_today_data_exists_spec. by rewrite bool_decide_eq_true_2.
Qed.

Lemma collect_all_news_key_missing w self force_update st :
  force_update = true ∨ ¬ today_data self st ->
  truthy_opt (api_key self) = false ->
  collect_all_news w self force_update st = (Return (error "API key missing"), st).
Proof.
  intros Hg Hk. unfold collect_all_news. unfold_M.
  rewrite check_today_data_exists_spec, Hk.
  destruct Hg as [-> | Hno].
  - by rewrite andb_false_r.
  - by rewrite bool_decide_eq_false_2.
Qed.

(** A run that reports success passed both guards. *)
Lemma success_proceeds w self force_update st r st' :
  collect_all_news w self force_update st = (Return r, st') ->
  status r = "success" ->
  proceeds self force_update st.
Proof.
  intros Hrun Hs. unfold proceeds.
  destruct (decide (today_data self st)) as [Hd|Hd], force_update eqn:Hf,
    (truthy_opt (api_key self)) eqn:Hk; eauto.
  all: try (rewrite collect_all_news_key_missing in Hrun by eauto;
            injection Hrun as <- <-; discriminate).
  all: rewrite collect_all_news_already_exists in Hrun by done;
       injection Hrun as <- <-; discriminate.
Qed.

Lemma append_cancel_l (p x y : string) : p +:+ x = p +:+ y -> x = y.
Proof. induction p as [|c p IH]; simpl; [done|]. intros H. injection H. exact IH. Qed.

Lemma init_paths_differ settings today :
  csv_file (__init__ settings today) ≠ json_file (__init__ settings today).
Proof.
  unfold __init__. cbn [csv_file json_file]. intros H.
  do 2 apply append_cancel_l in H.
  assert (∀ s, s +:+ ".csv" ≠ s +:+ ".json") as Hne.
  { intros s Hs. by apply append_cancel_l in Hs. }
  by apply (Hne today).
Qed.

Lemma _remove_duplicates_spec articles unique :
  _remove_duplicates articles = Return unique ->
  NoDup (url_key <$> unique) ∧ NoDup (Article.url <$> unique) ∧
  unique `sublist_of` articles ∧ first_wins articles unique.
Proof.
  intros Hd.
  destruct (dedup_loop_spec _ [] ∅ [] unique Hd) as (Hnd & Hsub & _ & Hfw).
  { intros k. split; [set_solver|]. intros (b & Hb & _). by apply elem_of_nil in Hb. }
  { constructor. }
  { constructor. }
  { constructor. }
  { intros a Ha. by apply elem_of_nil in Ha. }
  simpl in Hsub, Hfw. repeat split; try done.
  apply (NoDup_fmap_1 (fun u => match hash_key u with
                                 | Return k => Some k
                                 | Raise _ => None
                                 end)).
  by rewrite <- list_fmap_compose.
Qed.

(** C1. [_remove_duplicates] returns whenever every url is hashable.
    What it returns has no two articles with the same url, is the input
    with elements left out (so the order is kept), and holds, for every
    article of the input, the first article of the input with that url.
    In a run of [collect_all_news] that reports success, its input is
    the results of the API configurations followed by those of the
    feeds, in list order, and each file whose write completes holds its
    output. *)
Theorem collect_all_news_unique_urls w settings today force_update st :
  (∀ articles,
     Forall (fun a => is_Some (url_key a)) articles ->
     ∃ unique, _remove_duplicates articles = Return unique) ∧
  (∀ articles unique,
     _remove_duplicates articles = Return unique ->
     NoDup (url_key <$> unique) ∧ NoDup (Article.url <$> unique) ∧
     unique `sublist_of` articles ∧ first_wins articles unique) ∧
  (∀ r st',
     collect_all_news w (__init__ settings today) force_update st = (Return r, st') ->
     status r = "success" ->
     ∃ per_config per_feed st1 st2 unique,
       runs_each (_fetch_news_by_config w (__init__ settings today))
         countries_and_categories st per_config st1 ∧
       runs_each (_fetch_rss_news w (__init__ settings today))
         (rss_sources (__init__ settings today)) st1 per_feed st2 ∧
       _remove_duplicates (concat per_config ++ concat per_feed) = Return unique ∧
       (disk w (csv_file (__init__ settings today)) = WriteOk ->
          fs st' !! csv_file (__init__ settings today) = Some (CsvFile unique)) ∧
       (disk w (csv_file (__init__ settings today)) = WriteOk ->
        disk w (json_file (__init__ settings today)) = WriteOk ->
          fs st' !! json_file (__init__ settings today) =
            Some (JsonFile today (now w AtSave) (length unique) unique))).
Proof.
  split; [intros articles; apply dedup_loop_returns|].
  split; [apply _remove_duplicates_spec|].
  intros r st' Hrun Hs. pose proof (init_paths_differ settings today) as Hne.
  set (self := __init__ settings today) in *.
  pose proof (success_proceeds _ _ _ _ _ _ Hrun Hs) as Hgo.
  destruct (collect_all_news_run w self force_update st Hgo)
    as (per_config & per_feed & st1 & R1 & R2 & E).
  rewrite Hrun in E.
  destruct (_remove_duplicates (concat per_config ++ concat per_feed))
    as [unique|e] eqn:Hd; [|discriminate].
  injection E as Er Est. subst r st'.
  exists per_config, per_feed, st1, (after_calls st (expected_calls self)), unique.
  repeat split; try done.
  - intros Hc.
    destruct (_save_to_files_spec w self unique (after_calls st (expected_calls self)))
      as (s' & -> & _ & Hfs). simpl. rewrite Hc in Hfs.
    destruct (disk w (json_file self)) as [|[|]]; rewrite Hfs.
    + rewrite lookup_insert_ne by done. by rewrite lookup_insert_eq.
    + rewrite lookup_insert_ne by done. by rewrite lookup_insert_eq.
    + by rewrite lookup_insert_eq.
  - intros Hc Hj.
    destruct (_save_to_files_spec w self unique (after_calls st (expected_calls self)))
      as (s' & -> & _ & Hfs). simpl. rewrite Hc, Hj in Hfs. rewrite Hfs.
    by rewrite lookup_insert_eq.
Qed.

Lemma collect_all_news_unique_urls_witness :
  status (success "20240501" 1 [csv_file sample_fetcher; json_file sample_fetcher])
    = "success" ∧
  ∃ unique,
    (collect_all_news sample_world sample_fetcher false empty_state).2.(fs)
      !! csv_file sample_fetcher = Some (CsvFile unique) ∧
    NoDup (Article.url <$> unique).
Proof.
  split; [reflexivity|].
  destruct (collect_all_news_unique_urls sample_world sample_settings "20240501" false
              empty_state) as (_ & Hspec & Hrun).
  destruct (Hrun (success "20240501" 1 [csv_file sample_fetcher; json_file sample_fetcher])
              (collect_all_news sample_world sample_fetcher false empty_state).2)
    as (per_config & per_feed & st1 & st2 & unique & _ & _ & Hd & Hcsv & _).
  - vm_compute. reflexivity.
  - reflexivity.
  - exists unique. split; [apply Hcsv; reflexivity|].
    by destruct (Hspec _ _ Hd) as (_ & Hnd & _).
Defined.

Lemma proceeds_log w self force_update st :
  proceeds self force_update st ->
  net_log (collect_all_news w self force_update st).2 =
    net_log st ++ expected_calls self.
Proof.
  intros Hgo.
  destruct (collect_all_news_run w self force_update st Hgo)
    as (pc & pf & st1 & _ & _ & ->).
  destruct (_remove_duplicates _) as [u|e]; [|reflexivity].
  destruct (_save_to_files_spec w self u (after_calls st (expected_calls self)))
    as (s' & E1 & E2 & _).
  rewrite E1. simpl. rewrite E2. reflexivity.
Qed.

(** C2, as amended.  With both files of the day present and
    [force_update] false, [collect_all_news] returns the "already
    exists" result with the date and leaves the state as it was: no call
    is logged, no file is written.  A second call after a first call
    that reported success takes this branch exactly when both files
    exist at the end of the first call; they do whenever both writes of
    the first call completed.  When one of them is missing, the second
    call makes all the calls of a run again. *)
Theorem collect_all_news_idempotent w self :
  (∀ st, today_data self st ->
     collect_all_news w self false st =
       (Return (already_exists (today_str self)), st)) ∧
  (∀ force_update st r st',
     collect_all_news w self force_update st = (Return r, st') ->
     status r = "success" ->
     (disk w (csv_file self) = WriteOk ->
      disk w (json_file self) = WriteOk ->
      collect_all_news w self false st' =
        (Return (already_exists (today_str self)), st')) ∧
     (collect_all_news w self false st' =
        (Return (already_exists (today_str self)), st')
      <-> today_data self st') ∧
     (¬ today_data self st' ->
      net_log (collect_all_news w self false st').2 =
        net_log st' ++ expected_calls self)).
Proof.
  split; [intros st; apply collect_all_news_already_exists|].
  intros force_update st r st' Hrun Hs.
  pose proof (success_proceeds _ _ _ _ _ _ Hrun Hs) as Hgo.
  assert (¬ today_data self st' -> proceeds self false st') as Hnext.
  { intros Hno. split; [by right | by destruct Hgo]. }
  split; [|split].
  - intros Hc Hj. apply collect_all_news_already_exists.
    destruct (collect_all_news_run w self force_update st Hgo)
      as (per_config & per_feed & st1 & _ & _ & E).
    rewrite Hrun in E.
    destruct (_remove_duplicates _) as [unique|e]; [|discriminate].
    injection E as _ ->.
    destruct (_save_to_files_spec w self unique (after_calls st (expected_calls self)))
      as (s' & -> & _ & Hfs). simpl. rewrite Hc, Hj in Hfs.
    unfold today_data. rewrite Hfs. split.
    + destruct (decide (json_file self = csv_file self)) as [->|Hne].
      * rewrite lookup_insert_eq. eauto.
      * rewrite lookup_insert_ne by done. rewrite lookup_insert_eq. eauto.
    + rewrite lookup_insert_eq. eauto.
  - split; [|apply collect_all_news_already_exists].
    intros Hsecond. destruct (decide (today_data self st')) as [Hd|Hno]; [done|].
    exfalso.
    destruct (collect_all_news_run w self false st' (Hnext Hno))
      as (pc & pf & s1 & _ & _ & E).
    rewrite Hsecond in E.
    destruct (_remove_duplicates _); discriminate.
  - intros Hno. by apply proceeds_log, Hnext.
Qed.

Lemma collect_all_news_idempotent_witness :
  collect_all_news sample_world sample_fetcher false
    (collect_all_news sample_world sample_fetcher false empty_state).2 =
  (Return (already_exists "20240501"),
   (collect_all_news sample_world sample_fetcher false empty_state).2).
Proof.
  assert (collect_all_news sample_world sample_fetcher false empty_state =
          (Return (success "20240501" 1
                     [csv_file sample_fetcher; json_file sample_fetcher]),
           (collect_all_news sample_world sample_fetcher false empty_state).2))
    as E by (vm_compute; reflexivity).
  apply (proj1 (proj2 (collect_all_news_idempotent sample_world sample_fetcher)
                  false empty_state _ _ E eq_refl)); reflexivity.
Defined.

(** C2 with "after a successful first call" alone fails.  On a disk
    where the CSV of the day can be written and the JSON cannot, the
    first call stores the CSV file and returns the success result; the
    second call on the same day returns the success result again, not
    "already exists", and makes eighteen more calls.  The same happens
    on a disk that refuses every write. *)
Lemma second_call_after_success_refetches :
  ((collect_all_news csv_only_world sample_fetcher false empty_state).1 =
     Return (success "20240501" 1
               [csv_file sample_fetcher; json_file sample_fetcher]) ∧
   is_Some (fs (collect_all_news csv_only_world sample_fetcher false empty_state).2
              !! csv_file sample_fetcher) ∧
   (collect_all_news csv_only_world sample_fetcher false
      (collect_all_news csv_only_world sample_fetcher false empty_state).2).1 =
     Return (success "20240501" 1
               [csv_file sample_fetcher; json_file sample_fetcher]) ∧
   length (net_log (collect_all_news csv_only_world sample_fetcher false
                      empty_state).2) = 18%nat ∧
   length (net_log (collect_all_news csv_only_world sample_fetcher false
      (collect_all_news csv_only_world sample_fetcher false empty_state).2).2)
     = 36%nat) ∧
  ((collect_all_news readonly_world sample_fetcher false empty_state).1 =
     Return (success "20240501" 1
               [csv_file sample_fetcher; json_file sample_fetcher]) ∧
   (collect_all_news readonly_world sample_fetcher false
      (collect_all_news readonly_world sample_fetcher false empty_state).2).1 =
     Return (success "20240501" 1
               [csv_file sample_fetcher; json_file sample_fetcher]) ∧
   length (net_log (collect_all_news readonly_world sample_fetcher false
                      empty_state).2) = 18%nat ∧
   length (net_log (collect_all_news readonly_world sample_fetcher false
      (collect_all_news readonly_world sample_fetcher false empty_state).2).2)
     = 36%nat).
Proof. vm_compute. repeat split. by eexists. Qed.

(** C3. Without an API key ([None] or the empty string), and unless
    the already-exists guard applies, [collect_all_news] returns the
    error result; it does not raise, logs no call and writes no file. *)
Theorem collect_all_news_without_key w self force_update st :
  api_key self = None ∨ api_key self = Some "" ->
  force_update = true ∨ ¬ today_data self st ->
  collect_all_news w self force_update st =
    (Return (error "API key missing"), st).
Proof.
  intros Hk Hg. apply collect_all_news_key_missing; [done|].
  by destruct Hk as [-> | ->].
Qed.

Lemma collect_all_news_without_key_witness :
  collect_all_news sample_world
    (__init__ {| NEWS_API_KEY := None; MAX_NEWS_COUNT := 100 |} "20240501")
    false empty_state =
  (Return (error "API key missing"), empty_state).
Proof.
  apply collect_all_news_without_key.
  - left. reflexivity.
  - right. intros [[x Hx] _]. vm_compute in Hx. discriminate.
Defined.

(** *** Articles of the headline API *)

Ltac py_inv H :=
  repeat (let x := fresh "x" in
          let E := fresh "E" in
          apply py_bind_Return in H as (x & E & H)).

Lemma str_length_app (a b : string) :
  String.length (a +:+ b) = (String.length a + String.length b)%nat.
Proof. induction a as [|c a IH]; simpl; [done | by rewrite IH]. Qed.

Lemma str_take_length n : ∀ s,
  String.length (str_take n s) = Nat.min n (String.length s).
Proof.
  induction n as [|n IH]; intros [|c s]; simpl; try done. by rewrite IH.
Qed.

Lemma str_take_prefix n : ∀ s, ∃ tail, s = str_take n s +:+ tail.
Proof.
  induction n as [|n IH]; intros s.
  - exists s. by destruct s.
  - destruct s as [|c s]; [by exists ""|].
    destruct (IH s) as [tail Ht]. exists tail. simpl. rewrite Ht at 1. reflexivity.
Qed.

(** A non-empty [str] under ["content"] is cut and marked, whatever its
    length. *)
Lemma api_content_str article s :
  get article "content" JNull = Return (JStr s) -> s ≠ "" ->
  api_content article = Return (str_take 1000 s +:+ "...").
Proof.
  intros Hget Hne. unfold api_content. rewrite Hget. simpl.
  destruct s as [|c s]; [done|]. simpl.
  destruct article as [| | | | |kv]; try discriminate. simpl in *.
  destruct (assoc "content" kv) as [v|]; simpl in *; [|discriminate].
  injection Hget as ->. reflexivity.
Qed.

Lemma api_article_fields w config n article p :
  api_article w config n article = Return p ->
  getitem article "title" = Return (Article.title p) ∧
  getitem article "description" = Return (Article.description p) ∧
  api_content article = Return (Article.content p) ∧
  getitem article "url" = Return (Article.url p) ∧
  Article.id p = Config.name config +:+ "_" +:+ pretty n ∧
  Article.category p = Config.name config.
Proof.
  intros H. unfold api_article in H. py_inv H. injection H as <-. simpl.
  repeat split; done.
Qed.

Lemma has_title_and_description_true article :
  has_title_and_description article = Return true ->
  ∃ t d, getitem article "title" = Return t ∧ truthy t = true ∧
         getitem article "description" = Return d ∧ truthy d = true.
Proof.
  unfold has_title_and_description. intros H.
  apply py_bind_Return in H as (t & Ht & H).
  destruct (truthy t) eqn:Htt; [|discriminate].
  apply py_bind_Return in H as (d & Hd & H). injection H as Hdt.
  exists t, d. repeat split; done.
Qed.

(** Where the elements of the loop's result come from. *)
Lemma api_loop_origin w config raw : ∀ articles out p,
  api_loop w config raw articles = Return out -> p ∈ out ->
  p ∈ articles ∨
  ∃ article n, article ∈ raw ∧ has_title_and_description article = Return true ∧
    api_article w config n article = Return p.
Proof.
  induction raw as [|article raw IH]; intros articles out p Hrun Hp; simpl in Hrun.
  - injection Hrun as <-. by left.
  - apply py_bind_Return in Hrun as (keep & Hkeep & Hrun). destruct keep.
    + apply py_bind_Return in Hrun as (q & Hq & Hrun).
      destruct (IH _ _ _ Hrun Hp) as [Hin|(a & n & Ha & Hk & Hb)].
      * apply elem_of_app in Hin as [Hin|Hin]; [by left|].
        apply list_elem_of_singleton in Hin as ->. right.
        exists article, (length articles). split; [by left | done].
      * right. exists a, n. split; [by right | done].
    + destruct (IH _ _ _ Hrun Hp) as [Hin|(a & n & Ha & Hk & Hb)]; [by left|].
      right. exists a, n. split; [by right | done].
Qed.

(** Every article [_fetch_news_by_config] returns was built by
    [api_article] from an element of the ["articles"] of the body that
    passed the title-and-description test. *)
Lemma _fetch_news_by_config_origin w self config st out st' p :
  _fetch_news_by_config w self config st = (Return out, st') -> p ∈ out ->
  ∃ params resp data l raw article n,
    build_params self config = Return params ∧
    http w (length (net_log st)) (base_url self +:+ "/top-headlines") params
      = Some resp ∧
    body resp = Some data ∧ get data "articles" (JArr []) = Return l ∧
    iter l = Return raw ∧ article ∈ raw ∧
    has_title_and_description article = Return true ∧
    api_article w config n article = Return p.
Proof.
  unfold _fetch_news_by_config, fetch_news_body, requests_get,
    raise_for_status, response_json.
  unfold_M. intros Hrun Hp.
  destruct (build_params self config) as [params|];
    [|injection Hrun as <- _; by apply elem_of_nil in Hp].
  destruct (http w (length (net_log st)) _ params) as [resp|] eqn:Hresp;
    [|injection Hrun as <- _; by apply elem_of_nil in Hp].
  destruct (status_ok resp);
    [|injection Hrun as <- _; by apply elem_of_nil in Hp].
  destruct (body resp) as [data|] eqn:Hbody;
    [|injection Hrun as <- _; by apply elem_of_nil in Hp].
  destruct (get data "totalResults" (JNum 0)); simpl in Hrun;
    [|injection Hrun as <- _; by apply elem_of_nil in Hp].
  destruct (get data "articles" (JArr [])) as [l|] eqn:Hl; simpl in Hrun;
    [|injection Hrun as <- _; by apply elem_of_nil in Hp].
  destruct (iter l) as [raw|] eqn:Hraw; simpl in Hrun;
    [|injection Hrun as <- _; by apply elem_of_nil in Hp].
  destruct (api_loop w config raw []) as [res|] eqn:Hloop;
    injection Hrun as <- _; [|by apply elem_of_nil in Hp].
  destruct (api_loop_origin _ _ _ _ _ _ Hloop Hp) as [Hin|(art & n & Ha & Hk & Hb)];
    [by apply elem_of_nil in Hin|].
  exists params, resp, data, l, raw, art, n. repeat split; done.
Qed.

(** C5. When the ["content"] of an API article is a string [s] of more
    than 1000 characters, the article built from it stores the first
    1000 characters of [s] followed by ["..."], 1003 characters in all;
    and every article [_fetch_news_by_config] returns is built that way
    from an element of the body. *)
Theorem api_content_truncated w config :
  (∀ n article s p,
     get article "content" JNull = Return (JStr s) ->
     (1000 < String.length s)%nat ->
     api_article w config n article = Return p ->
     Article.content p = str_take 1000 s +:+ "..." ∧
     String.length (str_take 1000 s) = 1000%nat ∧
     (∃ tail, s = str_take 1000 s +:+ tail) ∧
     String.length (Article.content p) = 1003%nat) ∧
  (∀ self st out st' p,
     _fetch_news_by_config w self config st = (Return out, st') -> p ∈ out ->
     ∃ n article, api_article w config n article = Return p).
Proof.
  split.
  - intros n article s p Hget Hlen Hp.
    apply api_article_fields in Hp as (_ & _ & Hc & _).
    rewrite (api_content_str article s Hget) in Hc
      by (intros ->; simpl in Hlen; lia).
    assert (Article.content p = str_take 1000 s +:+ "...") as Hcp by congruence.
    assert (String.length (str_take 1000 s) = 1000%nat) as Htake
      by (rewrite str_take_length; lia).
    split; [done|]. split; [done|]. split; [apply str_take_prefix|].
    rewrite Hcp, str_length_app, Htake. reflexivity.
  - intros self st out st' p Hrun Hp.
    destruct (_fetch_news_by_config_origin _ _ _ _ _ _ _ Hrun Hp)
      as (_ & _ & _ & _ & _ & article & n & _ & _ & _ & _ & _ & _ & _ & H).
    eauto.
Qed.

Lemma api_content_truncated_witness :
  ∃ p, api_article sample_world (Config.mk (Some "kr") None None "kr") 0 long_item
         = Return p ∧
       Article.content p = str_repeat 1000 "a" +:+ "...".
Proof.
  eexists. split; [vm_compute; reflexivity|].
  refine (proj1 (proj1 (api_content_truncated sample_world
                   (Config.mk (Some "kr") None None "kr"))
                 0%nat long_item (str_repeat 1200 "a") _ _ _ _)).
  - reflexivity.
  - vm_compute. lia.
  - vm_compute. reflexivity.
Defined.

Lemma blank_not_kept article :
  blank (getitem article "title") ∨ blank (getitem article "description") ->
  has_title_and_description article = Return false ∨
  ∃ e, has_title_and_description article = Raise e.
Proof.
  unfold has_title_and_description, blank. intros H.
  destruct (getitem article "title") as [t|e]; simpl; [|by eauto].
  destruct (truthy t) eqn:Ht.
  - destruct H as [H|H]; [specialize (H t eq_refl); congruence|].
    destruct (getitem article "description") as [d|e]; simpl; [|by eauto].
    left. by rewrite (H d eq_refl).
  - by left.
Qed.

Lemma api_loop_skip w config article after :
  has_title_and_description article = Return false ->
  ∀ before articles,
    api_loop w config (before ++ article :: after) articles =
    api_loop w config (before ++ after) articles.
Proof.
  intros Hk before. induction before as [|b before IH]; intros articles; simpl.
  - by rewrite Hk.
  - destruct (has_title_and_description b) as [[|]|]; simpl; try done.
    destruct (api_article w config (length articles) b); simpl; done.
Qed.

Lemma api_loop_raise w config article after e :
  has_title_and_description article = Raise e ->
  ∀ before articles,
    ∃ e', api_loop w config (before ++ article :: after) articles = Raise e'.
Proof.
  intros Hk before. induction before as [|b before IH]; intros articles; simpl.
  - rewrite Hk. by eauto.
  - destruct (has_title_and_description b) as [[|]|]; simpl; eauto.
    destruct (api_article w config (length articles) b); simpl; eauto.
Qed.

(** C6. Every article [_fetch_news_by_config] returns has a title and a
    description that are present and not empty.  An element of the body
    whose title or description is missing or empty adds nothing: either
    the loop gives what it gives without that element, or it raises (and
    the configuration then yields no article at all). *)
Theorem api_requires_title_and_description w config :
  (∀ self st out st' p,
     _fetch_news_by_config w self config st = (Return out, st') -> p ∈ out ->
     truthy (Article.title p) = true ∧ truthy (Article.description p) = true ∧
     Article.title p ≠ JStr "" ∧ Article.title p ≠ JNull ∧
     Article.description p ≠ JStr "" ∧ Article.description p ≠ JNull) ∧
  (∀ article before after articles,
     blank (getitem article "title") ∨ blank (getitem article "description") ->
     api_loop w config (before ++ article :: after) articles =
       api_loop w config (before ++ after) articles ∨
     ∃ e, api_loop w config (before ++ article :: after) articles = Raise e).
Proof.
  split.
  - intros self st out st' p Hrun Hp.
    destruct (_fetch_news_by_config_origin _ _ _ _ _ _ _ Hrun Hp)
      as (_ & _ & _ & _ & _ & article & n & _ & _ & _ & _ & _ & _ & Hk & Hb).
    apply has_title_and_description_true in Hk as (t & d & Ht & Htt & Hd & Hdt).
    apply api_article_fields in Hb as (Ht' & Hd' & _).
    rewrite Ht in Ht'. rewrite Hd in Hd'.
    injection Ht' as <-. injection Hd' as <-.
    repeat split; try done; intros E; rewrite E in *; discriminate.
  - intros article before after articles Hblank.
    destruct (blank_not_kept article Hblank) as [Hk|[e Hk]].
    + left. by apply api_loop_skip.
    + right. by eapply api_loop_raise.
Qed.

Lemma api_requires_title_and_description_witness :
  api_loop sample_world (Config.mk (Some "kr") None None "kr")
    ([sample_item "First" "one" "https://a.example/1"]
       ++ sample_item "Untold" "" "https://a.example/2"
       :: [sample_item "Third" "three" "https://a.example/3"]) [] =
  api_loop sample_world (Config.mk (Some "kr") None None "kr")
    ([sample_item "First" "one" "https://a.example/1"]
       ++ [sample_item "Third" "three" "https://a.example/3"]) [].
Proof.
  destruct (proj2 (api_requires_title_and_description sample_world
                     (Config.mk (Some "kr") None None "kr"))
              (sample_item "Untold" "" "https://a.example/2")
              [sample_item "First" "one" "https://a.example/1"]
              [sample_item "Third" "three" "https://a.example/3"] [])
    as [H|[e H]].
  - right. intros v Hv. vm_compute in Hv. injection Hv as <-. reflexivity.
  - exact H.
  - vm_compute in H. discriminate.
Defined.

(** *** Articles of the feeds *)

Lemma rss_article_fields w rss_config n entry p :
  rss_article w rss_config n entry = Return p ->
  ∃ t l, Entry.title entry = Some t ∧ Entry.link entry = Some l ∧
    Article.title p = JStr t ∧ Article.url p = JStr l ∧
    Article.description p =
      JStr (str_take 200 (default t (Entry.summary entry)) +:+ "...").
Proof.
  unfold rss_article, getattr. intros H.
  destruct (Entry.title entry) as [t|]; [|discriminate]. simpl in H.
  destruct (rss_content entry) as [c|]; [|discriminate]. simpl in H.
  destruct (Entry.link entry) as [l|]; [|discriminate]. simpl in H.
  exists t, l. injection H as <-. repeat split; reflexivity.
Qed.

(** Whether an entry can be built does not depend on its summary. *)
Lemma rss_article_any_summary w rss_config n entry s :
  (∃ p, rss_article w rss_config n entry = Return p) ↔
  (∃ p, rss_article w rss_config n (set_summary s entry) = Return p).
Proof.
  unfold rss_article, rss_content, getattr, set_summary. simpl.
  destruct (Entry.title entry) as [t|]; simpl; [|by split; intros [? ?]].
  destruct (Entry.content entry) as [[|first items]|]; simpl;
    try (by split; intros [? ?]).
  - destruct (Entry.link entry) as [l|]; simpl; [|by split; intros [? ?]].
    split; intros _; eauto.
  - destruct (Entry.link entry) as [l|]; simpl; [|by split; intros [? ?]].
    split; intros _; eauto.
Qed.

(** The feed loop keeps every entry it visits, in order. *)
Lemma rss_loop_spec w rss_config entries : ∀ articles out,
  rss_loop w rss_config entries articles = Return out ->
  ∃ kept, out = articles ++ kept ∧ length kept = length entries ∧
    ∀ k entry, entries !! k = Some entry ->
      ∃ p, kept !! k = Some p ∧
           rss_article w rss_config (length articles + k) entry = Return p.
Proof.
  induction entries as [|entry entries IH]; intros articles out Hrun; simpl in Hrun.
  - injection Hrun as <-. exists []. rewrite app_nil_r.
    split; [done|]. split; [done|].
    intros k entry Hk. by rewrite lookup_nil in Hk.
  - apply py_bind_Return in Hrun as (q & Hq & Hrun).
    destruct (IH _ _ Hrun) as (kept & -> & Hlen & Hall).
    exists (q :: kept). rewrite <- app_assoc. split; [done|].
    split; [simpl; by rewrite Hlen|].
    intros [|k] e Hk; simpl in Hk.
    + injection Hk as <-. exists q. split; [done|]. by rewrite Nat.add_0_r.
    + destruct (Hall k e Hk) as (p & Hp1 & Hp2). exists p. split; [done|].
      rewrite length_app in Hp2. simpl in Hp2.
      by replace (length articles + S k)%nat with (length articles + 1 + k)%nat by lia.
Qed.

Lemma rss_article_buildable w rss_config n entry :
  (∃ p, rss_article w rss_config n entry = Return p) ↔ buildable entry.
Proof.
  unfold rss_article, rss_content, getattr, buildable.
  destruct (Entry.title entry) as [t|]; simpl.
  - destruct (Entry.content entry) as [[|first items]|]; simpl.
    + split; [intros [? ?]; discriminate | intros (_ & _ & H); by destruct H].
    + destruct (Entry.link entry) as [l|]; simpl.
      * split; [intros _; repeat split; eauto; discriminate | eauto].
      * split; [intros [? ?]; discriminate | intros (_ & [? ?] & _); discriminate].
    + destruct (Entry.link entry) as [l|]; simpl.
      * split; [intros _; repeat split; eauto; discriminate | eauto].
      * split; [intros [? ?]; discriminate | intros (_ & [? ?] & _); discriminate].
  - split; [intros [? ?]; discriminate | intros ([? ?] & _); discriminate].
Qed.

Lemma rss_loop_returns w rss_config entries : ∀ articles,
  Forall buildable entries ->
  ∃ out, rss_loop w rss_config entries articles = Return out.
Proof.
  induction entries as [|entry entries IH]; intros articles Hall; simpl; [by eauto|].
  apply Forall_cons in Hall as [Hb Hall].
  apply (rss_article_buildable w rss_config (length articles)) in Hb as [p ->].
  simpl. by apply IH.
Qed.

(** C7. A feed entry without a summary gets as description its title
    cut to 200 characters followed by ["..."], and it is included like
    any other entry: when each of the first ten entries of a feed has a
    title and a link and no empty content list, [_fetch_rss_news]
    returns one article for each of them, in order, the article at
    position [k] built from entry [k] - with the cut title as
    description when that entry has no summary.  The feed loop has no
    filter: what [_fetch_rss_news] returns is empty or has one article
    per entry among the first ten.  Whether an entry can be built is the
    same whatever its summary is, present or missing. *)
Theorem rss_summary_falls_back_to_title w rss_config :
  (∀ n entry p,
     Entry.summary entry = None ->
     rss_article w rss_config n entry = Return p ->
     ∃ t, Entry.title entry = Some t ∧
          Article.description p = JStr (str_take 200 t +:+ "...")) ∧
  (∀ self st entries,
     feeds w (length (net_log st)) (RssConfig.url rss_config) = Some entries ->
     Forall buildable (take 10 entries) ->
     ∃ out,
       (_fetch_rss_news w self rss_config st).1 = Return out ∧
       length out = Nat.min 10 (length entries) ∧
       ∀ k entry, (k < 10)%nat -> entries !! k = Some entry ->
         ∃ p, out !! k = Some p ∧ rss_article w rss_config k entry = Return p ∧
           (Entry.summary entry = None ->
            ∃ t, Entry.title entry = Some t ∧
                 Article.description p = JStr (str_take 200 t +:+ "..."))) ∧
  (∀ self st out st' entries,
     feeds w (length (net_log st)) (RssConfig.url rss_config) = Some entries ->
     _fetch_rss_news w self rss_config st = (Return out, st') ->
     out = [] ∨
     (length out = Nat.min 10 (length entries) ∧
      ∀ k entry, (k < 10)%nat -> entries !! k = Some entry ->
        ∃ p, out !! k = Some p ∧ rss_article w rss_config k entry = Return p)) ∧
  (∀ n entry s,
     (∃ p, rss_article w rss_config n entry = Return p) ↔
     (∃ p, rss_article w rss_config n (set_summary s entry) = Return p)) ∧
  (∀ entry s, buildable (set_summary s entry) ↔ buildable entry).
Proof.
  assert (∀ n entry p,
            Entry.summary entry = None ->
            rss_article w rss_config n entry = Return p ->
            ∃ t, Entry.title entry = Some t ∧
                 Article.description p = JStr (str_take 200 t +:+ "...")) as Hfall.
  { intros n entry p Hs Hp.
    apply rss_article_fields in Hp as (t & l & Ht & _ & _ & _ & Hd).
    rewrite Hs in Hd. eauto. }
  split; [done|]. split; [|split; [|split]].
  - intros self st entries Hfeed Hall.
    unfold _fetch_rss_news, fetch_rss_body, feedparser_parse. unfold_M.
    rewrite Hfeed.
    destruct (rss_loop_returns w rss_config _ [] Hall) as [out Hout].
    rewrite Hout. exists out. split; [done|].
    destruct (rss_loop_spec _ _ _ _ _ Hout) as (kept & -> & Hlen & Hspec).
    simpl. split; [by rewrite Hlen, length_take|].
    intros k entry Hk He.
    destruct (Hspec k entry) as (p & Hp & Hb); [by rewrite lookup_take_lt|].
    exists p. split; [done|]. split; [done|]. intros Hs. by eapply Hfall.
  - intros self st out st' entries Hfeed Hrun.
    unfold _fetch_rss_news, fetch_rss_body, feedparser_parse in Hrun.
    unfold_M. rewrite Hfeed in Hrun.
    destruct (rss_loop w rss_config (take 10 entries) []) as [res|] eqn:Hloop;
      injection Hrun as <- _; [|by left].
    right. destruct (rss_loop_spec _ _ _ _ _ Hloop) as (kept & -> & Hlen & Hall).
    simpl. split; [by rewrite Hlen, length_take|].
    intros k entry Hk He. apply (Hall k entry). by rewrite lookup_take_lt.
  - intros n entry s. apply rss_article_any_summary.
  - intros entry s. unfold buildable, set_summary. simpl. done.
Qed.

Lemma rss_summary_falls_back_to_title_witness :
  Entry.summary sample_entry = None ∧
  ∃ out p,
    (_fetch_rss_news sample_world sample_fetcher feed_config empty_state).1
      = Return out ∧
    length out = 1%nat ∧ out !! 0%nat = Some p ∧
    Article.description p = JStr "Feed item...".
Proof.
  split; [reflexivity|].
  destruct (proj1 (proj2 (rss_summary_falls_back_to_title sample_world feed_config))
              sample_fetcher empty_state [sample_entry] eq_refl)
    as (out & Hout & Hlen & Hall).
  { repeat constructor; [by eexists | by eexists | discriminate]. }
  destruct (Hall 0%nat sample_entry) as (p & Hp & _ & Hd); [lia | reflexivity |].
  destruct (Hd eq_refl) as (t & Ht & Hdesc). injection Ht as <-.
  exists out, p. repeat split; done.
Defined.

(** *** The query parameters *)

Lemma us_config_fixed : us_config ∈ countries_and_categories.
Proof.
  unfold us_config, countries_and_categories.
  do 4 apply list_elem_of_further. apply list_elem_of_here.
Qed.

(** C8 with the three listed shapes fails: the request of the first us
    configuration carries country us together with language en, which is
    none of the three stated shapes. *)
Lemma us_request_outside_stated_shapes :
  us_config ∈ countries_and_categories ∧
  ∃ params, build_params sample_fetcher us_config = Return params ∧
    params !! "country" = Some (QStr "us") ∧
    params !! "language" = Some (QStr "en") ∧
    ¬ stated_shape (rest_params params).
Proof.
  split; [exact us_config_fixed|].
  eexists. split; [reflexivity|]. split; [reflexivity|]. split; [reflexivity|].
  intros [(c & cat & H)|[(cat & H)|(srcs & H)]].
  - apply (f_equal (fun m => m !! "language")) in H.
    destruct cat; vm_compute in H; discriminate.
  - apply (f_equal (fun m => m !! "country")) in H.
    destruct cat; vm_compute in H; discriminate.
  - apply (f_equal (fun m => m !! "country")) in H.
    vm_compute in H; discriminate.
Qed.

Lemma elem_of_concat_fmap {A B : Type} (f : A -> list B) (l : list A) (x : B) :
  x ∈ concat (f <$> l) ↔ ∃ y, y ∈ l ∧ x ∈ f y.
Proof.
  induction l as [|a l IH]; simpl.
  - split; [intros H; by apply elem_of_nil in H | intros (y & H & _); by apply elem_of_nil in H].
  - rewrite elem_of_app, IH. split.
    + intros [H|(y & Hy & H)]; [exists a | exists y]; split; try done; by constructor.
    + intros (y & Hy & H). apply elem_of_cons in Hy as [->|Hy]; [by left|].
      right. by exists y.
Qed.

Ltac solve_built_shape :=
  first
    [ left; exists None; reflexivity
    | left; eexists (Some _); reflexivity
    | right; left; exists "gb", None; split; [by left | reflexivity]
    | right; left; exists "us", None; split; [by right | reflexivity]
    | right; left; exists "gb"; eexists (Some _); split; [by left | reflexivity]
    | right; left; exists "us"; eexists (Some _); split; [by right | reflexivity]
    | right; right; eexists; reflexivity ].

(** Each of the twelve configurations yields a request, with the key,
    the page size and one of the built shapes. *)
Lemma build_params_fixed self config :
  config ∈ countries_and_categories ->
  ∃ params, build_params self config = Return params ∧
    params !! "apiKey" = Some (qopt (api_key self)) ∧
    params !! "pageSize" = Some (QInt 20) ∧
    built_shape (rest_params params).
Proof.
  unfold countries_and_categories. intros H.
  repeat (apply elem_of_cons in H as [->|H]);
    try (eexists; split; [reflexivity|]; split; [reflexivity|];
         split; [reflexivity|]; solve_built_shape).
  by apply elem_of_nil in H.
Qed.

(** The calls a run adds to the log: none when a guard cuts it short,
    else the eighteen expected ones. *)
Lemma collect_all_news_log w self force_update st :
  net_log (collect_all_news w self force_update st).2 = net_log st ∨
  (proceeds self force_update st ∧
   net_log (collect_all_news w self force_update st).2 =
     net_log st ++ expected_calls self).
Proof.
  destruct (decide (today_data self st)) as [Hd|Hd], force_update eqn:Hf,
    (truthy_opt (api_key self)) eqn:Hk.
  all: try (left; rewrite collect_all_news_key_missing by eauto; reflexivity).
  all: try (left; rewrite collect_all_news_already_exists by done; reflexivity).
  all: right; assert (proceeds self force_update st) as Hgo
         by (subst; unfold proceeds; eauto).
  all: subst; split; [done | by apply proceeds_log].
Qed.

(** C8, as amended.  Every [HttpGet] a run of [collect_all_news] adds
    to the log goes to the top-headlines endpoint with timeout 10 and
    carries [apiKey] (the configured, non-empty key) and [pageSize] 20;
    its other parameters have one of the built shapes: country kr with
    an optional category, country gb or us with language en and an
    optional category, or a source list with language en.  A run that
    passes the guards sends such a request for each of the twelve
    configurations. *)
Theorem headline_requests_shape w self force_update st :
  ∃ new,
    net_log (collect_all_news w self force_update st).2 = net_log st ++ new ∧
    (∀ url params timeout,
       HttpGet url params timeout ∈ new ->
       url = base_url self +:+ "/top-headlines" ∧ timeout = 10%Z ∧
       truthy_opt (api_key self) = true ∧
       params !! "apiKey" = Some (qopt (api_key self)) ∧
       params !! "pageSize" = Some (QInt 20) ∧
       built_shape (rest_params params)) ∧
    (proceeds self force_update st ->
     ∀ config, config ∈ countries_and_categories ->
       ∃ params, build_params self config = Return params ∧
         HttpGet (base_url self +:+ "/top-headlines") params 10 ∈ new).
Proof.
  destruct (collect_all_news_log w self force_update st) as [Hlog|[Hgo Hlog]].
  - exists []. rewrite app_nil_r. split; [done|]. split.
    + intros url params timeout H. by apply elem_of_nil in H.
    + intros Hgo. exfalso.
      pose proof (proceeds_log w self force_update st Hgo) as Hlog'.
      rewrite Hlog in Hlog'.
      assert (length (net_log st) = length (net_log st ++ expected_calls self))
        as Hlen by congruence.
      rewrite length_app in Hlen.
      assert (0 < length (expected_calls self))%nat; [|lia].
      unfold expected_calls, api_calls, countries_and_categories.
      rewrite length_app. simpl. lia.
  - exists (expected_calls self). split; [done|]. split.
    + intros url params timeout H. unfold expected_calls in H.
      apply elem_of_app in H as [H|H]; apply elem_of_concat_fmap in H as (y & Hy & H).
      * destruct (build_params_fixed self y Hy) as (params' & Hb & Hkey & Hsize & Hshape).
        unfold api_calls in H. rewrite Hb in H.
        apply list_elem_of_singleton in H. injection H as Hu Hp Ht.
        destruct Hgo as [_ Hk]. rewrite Hu, Hp, Ht. repeat split; done.
      * apply list_elem_of_singleton in H. discriminate.
    + intros _ config Hc.
      destruct (build_params_fixed self config Hc) as (params & Hb & _).
      exists params. split; [done|]. unfold expected_calls.
      apply elem_of_app. left. apply elem_of_concat_fmap. exists config.
      split; [done|]. unfold api_calls. rewrite Hb. by apply list_elem_of_singleton.
Qed.

Lemma sample_proceeds : proceeds sample_fetcher false empty_state.
Proof.
  split; [|reflexivity]. right. intros [[x Hx] _]. vm_compute in Hx. discriminate.
Qed.

Lemma headline_requests_shape_witness :
  ∃ params, build_params sample_fetcher us_config = Return params ∧
    built_shape (rest_params params).
Proof.
  destruct (headline_requests_shape sample_world sample_fetcher false empty_state)
    as (new & _ & Hshape & Hall).
  destruct (Hall sample_proceeds us_config) as (params & Hb & Hin).
  { exact us_config_fixed. }
  exists params. split; [exact Hb|]. by apply (Hshape _ _ _ Hin).
Defined.

(** C9. [MAX_NEWS_COUNT] is not read: replacing its value in the
    settings changes neither the fetcher built from them nor anything
    [collect_all_news] returns or leaves behind. *)
Theorem max_news_count_unused w settings count today force_update st :
  __init__ {| NEWS_API_KEY := NEWS_API_KEY settings; MAX_NEWS_COUNT := count |} today
    = __init__ settings today ∧
  collect_all_news w
    (__init__ {| NEWS_API_KEY := NEWS_API_KEY settings; MAX_NEWS_COUNT := count |} today)
    force_update st =
  collect_all_news w (__init__ settings today) force_update st.
Proof. split; reflexivity. Qed.

(** C10. In a run that passes the guards and whose removal of
    duplicates returns [unique], [collect_all_news] returns the success
    result with the date, [len(unique)] and both paths, however the
    writes end.  When the CSV write raises, the JSON write is not
    attempted; when the JSON write raises, the CSV file stays.  Neither
    shows in the result. *)
Theorem save_failure_still_success w self force_update st :
  proceeds self force_update st ->
  ∃ per_config per_feed st1 st2,
    runs_each (_fetch_news_by_config w self) countries_and_categories st per_config st1 ∧
    runs_each (_fetch_rss_news w self) (rss_sources self) st1 per_feed st2 ∧
    ∀ unique,
      _remove_duplicates (concat per_config ++ concat per_feed) = Return unique ->
      ∃ st',
        collect_all_news w self force_update st =
          (Return (success (today_str self) (length unique)
                     [csv_file self; json_file self]), st') ∧
        net_log st' = net_log st2 ∧
        (∀ leaves, disk w (csv_file self) = WriteRaises leaves ->
           fs st' = if leaves then <[csv_file self := Truncated]> (fs st) else fs st) ∧
        (∀ leaves, disk w (csv_file self) = WriteOk ->
           disk w (json_file self) = WriteRaises leaves ->
           fs st' = if leaves
                    then <[json_file self := Truncated]>
                           (<[csv_file self := CsvFile unique]> (fs st))
                    else <[csv_file self := CsvFile unique]> (fs st)).
Proof.
  intros Hgo.
  destruct (collect_all_news_run w self force_update st Hgo)
    as (per_config & per_feed & st1 & R1 & R2 & E).
  exists per_config, per_feed, st1, (after_calls st (expected_calls self)).
  split; [done|]. split; [done|]. intros unique Hu. rewrite Hu in E.
  destruct (_save_to_files_spec w self unique (after_calls st (expected_calls self)))
    as (st' & Es & Hlog & Hfs).
  rewrite Es in E. simpl in E. exists st'. split; [done|]. split; [done|]. split.
  - intros leaves Hc. by rewrite Hc in Hfs.
  - intros leaves Hc Hj. by rewrite Hc, Hj in Hfs.
Qed.

Lemma runs_each_det {C : Type} (fetch : C -> M (list Article.t))
    configs st results st' :
  runs_each fetch configs st results st' ->
  ∀ results2 st2, runs_each fetch configs st results2 st2 ->
    results = results2 ∧ st' = st2.
Proof.
  induction 1 as [st|c cs st articles st1 results st2 E R IH];
    intros results2 s2 R2; inversion R2; subst; [done|].
  match goal with
  | H : fetch c st = _ |- _ => rewrite E in H; injection H as <- <-
  end.
  match goal with
  | H : runs_each fetch cs st1 _ _ |- _ => destruct (IH _ _ H) as [-> ->]
  end.
  done.
Qed.

Lemma save_failure_still_success_witness :
  ∃ st', collect_all_news readonly_world sample_fetcher false empty_state =
           (Return (success "20240501" 1
                      [csv_file sample_fetcher; json_file sample_fetcher]), st') ∧
         fs st' = ∅.
Proof.
  destruct (save_failure_still_success readonly_world sample_fetcher false empty_state
              sample_proceeds)
    as (per_config & per_feed & st1 & st2 & R1 & R2 & H).
  destruct (collect_all_news_run readonly_world sample_fetcher false empty_state
              sample_proceeds) as (pc & pf & s1 & R1' & R2' & E).
  destruct (runs_each_det _ _ _ _ _ R1 _ _ R1') as [-> ->].
  destruct (runs_each_det _ _ _ _ _ R2 _ _ R2') as [-> _].
  assert ((collect_all_news readonly_world sample_fetcher false empty_state).1
          = Return (success "20240501" 1
                      [csv_file sample_fetcher; json_file sample_fetcher]))
    as E1 by (vm_compute; reflexivity).
  destruct (_remove_duplicates (concat pc ++ concat pf)) as [unique|e] eqn:Hu.
  - destruct (H unique eq_refl) as (st' & E' & _ & Hfs & _).
    exists st'. split; [|exact (Hfs false eq_refl)].
    rewrite E' in E1. rewrite E'. f_equal. exact E1.
  - rewrite E in E1. discriminate.
Defined.

(** *** One source failing *)

Lemma fetch_source_eq w self src st :
  fetch_source w self src st =
    (Return (match (source_body w self src st).1 with
             | Return l => l
             | Raise _ => []
             end),
     after_calls st (source_calls self src)).
Proof.
  destruct src as [config|rss_config]; simpl.
  - unfold _fetch_news_by_config. by rewrite try_except_nil, fetch_news_body_state.
  - unfold _fetch_rss_news. by rewrite try_except_nil, fetch_rss_body_state.
Qed.

Lemma source_calls_one self src :
  src ∈ sources self -> length (source_calls self src) = 1%nat.
Proof.
  unfold sources. intros H. apply elem_of_app in H as [H|H];
    apply list_elem_of_fmap in H as (x & -> & Hx); simpl; [|done].
  destruct (build_params_fixed self x Hx) as (params & Hb & _).
  unfold api_calls. by rewrite Hb.
Qed.

Lemma api_loop_ext w w' config raw :
  (∀ p, now w p = now w' p) ->
  ∀ articles, api_loop w config raw articles = api_loop w' config raw articles.
Proof.
  intros Hnow. induction raw as [|article raw IH]; intros articles; simpl; [done|].
  destruct (has_title_and_description article) as [[|]|]; simpl; try done.
  unfold api_article. rewrite Hnow.
  destruct (getitem article "title"); simpl; [|done].
  destruct (getitem article "description"); simpl; [|done].
  destruct (api_content article); simpl; [|done].
  destruct (getitem article "url"); simpl; [|done].
  destruct (getitem article "source") as [source|]; simpl; [|done].
  destruct (getitem source "name"); simpl; [|done].
  destruct (getitem article "publishedAt"); simpl; [|done].
  destruct (get article "author" (JStr "Unknown")); simpl; done.
Qed.

Lemma rss_loop_ext w w' rss_config entries :
  (∀ p, now w p = now w' p) ->
  ∀ articles, rss_loop w rss_config entries articles
              = rss_loop w' rss_config entries articles.
Proof.
  intros Hnow. induction entries as [|entry entries IH]; intros articles; simpl; [done|].
  unfold rss_article. rewrite !Hnow.
  destruct (getattr (Entry.title entry)); simpl; [|done].
  destruct (rss_content entry); simpl; [|done].
  destruct (getattr (Entry.link entry)); simpl; done.
Qed.

(** A fetch sees the world only through the reply to the call it
    makes and through the clock. *)
Lemma fetch_source_ext w w' self src st :
  (∀ url params, http w (length (net_log st)) url params
                 = http w' (length (net_log st)) url params) ->
  (∀ url, feeds w (length (net_log st)) url = feeds w' (length (net_log st)) url) ->
  (∀ p, now w p = now w' p) ->
  fetch_source w self src st = fetch_source w' self src st.
Proof.
  intros Hhttp Hfeeds Hnow. destruct src as [config|rss_config]; simpl.
  - unfold _fetch_news_by_config, fetch_news_body, requests_get. unfold_M.
    destruct (build_params self config) as [params|]; [|done].
    rewrite Hhttp.
    destruct (http w' _ _ params) as [resp|]; [|done].
    destruct (raise_for_status resp); [|done].
    destruct (response_json resp) as [data|]; [|done].
    destruct (get data "totalResults" (JNum 0)); [|done].
    destruct (match get data "articles" (JArr []) with
              | Return a => iter a
              | Raise e => Raise e
              end) as [raw|]; [|done].
    by rewrite (api_loop_ext w w' config raw Hnow).
  - unfold _fetch_rss_news, fetch_rss_body, feedparser_parse. unfold_M.
    rewrite Hfeeds.
    destruct (feeds w' _ _) as [entries|]; [|done].
    by rewrite (rss_loop_ext w w' rss_config _ Hnow).
Qed.

Lemma for_extend_agree w w' self srcs : ∀ acc st,
  (∀ src, src ∈ srcs -> length (source_calls self src) = 1%nat) ->
  (∀ j src st_j, srcs !! j = Some src ->
     length (net_log st_j) = (length (net_log st) + j)%nat ->
     fetch_source w self src st_j = fetch_source w' self src st_j) ->
  for_extend (fetch_source w self) srcs acc st =
  for_extend (fetch_source w' self) srcs acc st.
Proof.
  induction srcs as [|src srcs IH]; intros acc st Hone Hsame; simpl; [done|].
  unfold_M. rewrite (Hsame 0%nat src st eq_refl) by lia.
  rewrite (fetch_source_eq w' self src st).
  apply IH.
  - intros s Hs. apply Hone. by right.
  - intros j s st_j Hj Hlen. apply (Hsame (S j) s st_j Hj).
    rewrite Hlen. unfold after_calls. simpl. rewrite length_app, Hone by left. lia.
Qed.

Lemma for_extend_rss w self rss : ∀ acc st,
  for_extend (fetch_source w self) (inr <$> rss) acc st =
  for_extend (_fetch_rss_news w self) rss acc st.
Proof.
  induction rss as [|r rss IH]; intros acc st; simpl; [done|].
  unfold_M. destruct (_fetch_rss_news w self r st) as [[l|e] s]; [apply IH | done].
Qed.

Lemma for_extend_sources w self configs rss : ∀ acc st,
  for_extend (fetch_source w self) ((inl <$> configs) ++ (inr <$> rss)) acc st =
  match for_extend (_fetch_news_by_config w self) configs acc st with
  | (Return all, st1) => for_extend (_fetch_rss_news w self) rss all st1
  | (Raise e, st1) => (Raise e, st1)
  end.
Proof.
  induction configs as [|c configs IH]; intros acc st; simpl.
  - apply for_extend_rss.
  - unfold_M.
    destruct (_fetch_news_by_config w self c st) as [[l|e] s]; [apply IH | done].
Qed.

(** [collect_all_news] with its two loops read as one loop over
    [sources]. *)
Lemma collect_all_news_sources w self force_update st :
  collect_all_news w self force_update st =
  if bool_decide (today_data self st) && negb force_update then
    (Return (already_exists (today_str self)), st)
  else if negb (truthy_opt (api_key self)) then
    (Return (error "API key missing"), st)
  else
    match for_extend (fetch_source w self) (sources self) [] st with
    | (Return all, st2) =>
        match _remove_duplicates all with
        | Return unique =>
            (Return (success (today_str self) (length unique)
                       [csv_file self; json_file self]),
             (_save_to_files w self unique st2).2)
        | Raise e => (Raise e, st2)
        end
    | (Raise e, st2) => (Raise e, st2)
    end.
Proof.
  unfold collect_all_news, sources. unfold_M.
  rewrite check_today_data_exists_spec, for_extend_sources.
  destruct (bool_decide (today_data self st) && negb force_update); [done|].
  destruct (negb (truthy_opt (api_key self))); [done|].
  destruct (for_extend (_fetch_news_by_config w self) _ [] st) as [[all1|e] st1]; [|done].
  destruct (for_extend (_fetch_rss_news w self) _ all1 st1) as [[all|e] st2]; [|done].
  destruct (_remove_duplicates all) as [unique|e]; [|done].
  by destruct (_save_to_files_spec w self unique st2) as (s' & -> & _).
Qed.

Lemma _save_to_files_ext w w' self articles st :
  (∀ path, disk w path = disk w' path) -> (∀ p, now w p = now w' p) ->
  _save_to_files w self articles st = _save_to_files w' self articles st.
Proof.
  intros Hdisk Hnow. unfold _save_to_files, write_file. unfold_M.
  by rewrite !Hdisk, Hnow.
Qed.

(** The results of the sources of a run, one by one: each is what the
    [try] block of the source returns in the state reached, or the empty
    list when that block raises. *)
Lemma runs_each_sources w self srcs : ∀ st,
  (∀ src, src ∈ srcs -> length (source_calls self src) = 1%nat) ->
  ∃ results st2,
    runs_each (fetch_source w self) srcs st results st2 ∧
    ∀ j src, srcs !! j = Some src ->
      ∃ st_j, length (net_log st_j) = (length (net_log st) + j)%nat ∧
        results !! j = Some (match (source_body w self src st_j).1 with
                             | Return l => l
                             | Raise _ => []
                             end).
Proof.
  induction srcs as [|src srcs IH]; intros st Hone.
  - exists [], st. split; [constructor|]. intros j src Hj. by rewrite lookup_nil in Hj.
  - destruct (IH (after_calls st (source_calls self src))) as (results & st2 & R & Hl).
    { intros s Hs. apply Hone. by right. }
    eexists (_ :: results), st2. split.
    + econstructor; [apply fetch_source_eq | exact R].
    + intros [|j] s Hj; simpl in Hj.
      * injection Hj as <-. exists st. split; [lia | done].
      * destruct (Hl j s Hj) as (st_j & Hlen & Hres). exists st_j. split; [|done].
        rewrite Hlen. unfold after_calls. simpl.
        rewrite length_app, Hone by left. lia.
Qed.

Lemma elem_of_concat_lookup {A : Type} (ls : list (list A)) j l (x : A) :
  ls !! j = Some l -> x ∈ l -> x ∈ concat ls.
Proof.
  revert j. induction ls as [|l0 ls IH]; intros [|j] Hj Hx; simpl in *; try done.
  - injection Hj as ->. apply elem_of_app. by left.
  - apply elem_of_app. right. by eapply IH.
Qed.

(** C4. Let source number [i] of a run be fetched in world [w] with its
    [try] block raising, and let [w'] differ from [w] only in the reply
    to that one call, such that there the block returns the empty list.
    Then the fetch of the source returns the empty list in [w], and
    [collect_all_news] gives in [w] what it gives in [w']: the same
    result, the same files, the same calls.  And the run goes on: when
    it passes the guards, every source is fetched in order, the failing
    one giving the empty list and each other one what its fetch returns;
    the run removes the duplicates of all these results together,
    reports their number and saves them, so that for every article of
    every other source an article with its url is in the list saved. *)
Theorem failing_source_counts_as_empty w w' self force_update st i src :
  sources self !! i = Some src ->
  (∀ m url params, m ≠ (length (net_log st) + i)%nat ->
     http w m url params = http w' m url params) ->
  (∀ m url, m ≠ (length (net_log st) + i)%nat -> feeds w m url = feeds w' m url) ->
  (∀ p, now w p = now w' p) ->
  (∀ path, disk w path = disk w' path) ->
  (∀ st_i, length (net_log st_i) = (length (net_log st) + i)%nat ->
     ∃ e, (source_body w self src st_i).1 = Raise e) ->
  (∀ st_i, length (net_log st_i) = (length (net_log st) + i)%nat ->
     (source_body w' self src st_i).1 = Return []) ->
  (∀ st_i, length (net_log st_i) = (length (net_log st) + i)%nat ->
     (fetch_source w self src st_i).1 = Return []) ∧
  collect_all_news w self force_update st = collect_all_news w' self force_update st ∧
  (proceeds self force_update st ->
   ∃ results st2,
     runs_each (fetch_source w self) (sources self) st results st2 ∧
     results !! i = Some [] ∧
     collect_all_news w self force_update st =
       match _remove_duplicates (concat results) with
       | Return unique =>
           (Return (success (today_str self) (length unique)
                      [csv_file self; json_file self]),
            (_save_to_files w self unique st2).2)
       | Raise e => (Raise e, st2)
       end ∧
     ∀ unique,
       _remove_duplicates (concat results) = Return unique ->
       (∀ j r a, results !! j = Some r -> a ∈ r ->
          ∃ b, b ∈ unique ∧ url_key b = url_key a) ∧
       (disk w (csv_file self) = WriteOk -> disk w (json_file self) = WriteOk ->
          fs (collect_all_news w self force_update st).2 !! json_file self =
            Some (JsonFile (today_str self) (now w AtSave) (length unique) unique)) ∧
       (csv_file self ≠ json_file self -> disk w (csv_file self) = WriteOk ->
          fs (collect_all_news w self force_update st).2 !! csv_file self =
            Some (CsvFile unique))).
Proof.
  intros Hsrc Hhttp Hfeeds Hnow Hdisk Hraise Hempty.
  assert (∀ st_i, length (net_log st_i) = (length (net_log st) + i)%nat ->
            fetch_source w self src st_i = fetch_source w' self src st_i
            ∧ (fetch_source w self src st_i).1 = Return []) as Hat.
  { intros st_i Hlen. rewrite !fetch_source_eq.
    destruct (Hraise st_i Hlen) as [e ->]. by rewrite (Hempty st_i Hlen). }
  split; [intros st_i Hlen; by apply Hat|]. split.
  { rewrite !collect_all_news_sources.
    rewrite (for_extend_agree w w' self (sources self) [] st).
    - destruct (bool_decide (today_data self st) && negb force_update); [done|].
      destruct (negb (truthy_opt (api_key self))); [done|].
      destruct (for_extend (fetch_source w' self) (sources self) [] st)
        as [[all|e] st2]; [|done].
      destruct (_remove_duplicates all) as [unique|e]; [|done].
      by rewrite (_save_to_files_ext w w' self unique st2 Hdisk Hnow).
    - apply source_calls_one.
    - intros j s st_j Hj Hlen. destruct (decide (j = i)) as [->|Hne].
      + rewrite Hsrc in Hj. injection Hj as <-. by apply Hat.
      + apply fetch_source_ext; try done.
        * intros url params. apply Hhttp. lia.
        * intros url. apply Hfeeds. lia. }
  intros Hgo.
  destruct (runs_each_sources w self (sources self) st (source_calls_one self))
    as (results & st2 & R & Hl).
  exists results, st2. split; [done|]. split.
  { destruct (Hl i src Hsrc) as (st_i & Hlen & ->).
    by destruct (Hraise st_i Hlen) as [e ->]. }
  assert (collect_all_news w self force_update st =
          match _remove_duplicates (concat results) with
          | Return unique =>
              (Return (success (today_str self) (length unique)
                         [csv_file self; json_file self]),
               (_save_to_files w self unique st2).2)
          | Raise e => (Raise e, st2)
          end) as E.
  { rewrite collect_all_news_sources.
    destruct (guards_pass _ _ _ Hgo) as [-> ->].
    by rewrite (for_extend_runs _ _ _ _ _ R []). }
  split; [done|]. intros unique Hu. rewrite E, Hu. simpl.
  destruct (_remove_duplicates_spec _ _ Hu) as (_ & _ & _ & Hfw).
  split; [|split].
  - intros j r a Hj Ha.
    destruct (Hfw a) as (l1 & b & l2 & _ & Hk & _ & Hb);
      [by eapply elem_of_concat_lookup|].
    by exists b.
  - intros Hc Hj.
    destruct (_save_to_files_spec w self unique st2) as (s' & -> & _ & Hfs).
    simpl. rewrite Hc, Hj in Hfs. rewrite Hfs. by rewrite lookup_insert_eq.
  - intros Hne Hc.
    destruct (_save_to_files_spec w self unique st2) as (s' & -> & _ & Hfs).
    simpl. rewrite Hc in Hfs.
    destruct (disk w (json_file self)) as [|[|]]; rewrite Hfs.
    + rewrite lookup_insert_ne by done. by rewrite lookup_insert_eq.
    + rewrite lookup_insert_ne by done. by rewrite lookup_insert_eq.
    + by rewrite lookup_insert_eq.
Qed.

Lemma failing_source_counts_as_empty_witness :
  collect_all_news (with_reply_3 malformed_body) sample_fetcher false empty_state =
    collect_all_news (with_reply_3 empty_body) sample_fetcher false empty_state ∧
  ∃ results unique,
    results !! 3%nat = Some [] ∧
    _remove_duplicates (concat results) = Return unique ∧
    length unique = 1%nat ∧
    fs (collect_all_news (with_reply_3 malformed_body) sample_fetcher false
          empty_state).2 !! csv_file sample_fetcher = Some (CsvFile unique).
Proof.
  destruct (failing_source_counts_as_empty
              (with_reply_3 malformed_body) (with_reply_3 empty_body)
              sample_fetcher false empty_state 3
              (inl (Config.mk (Some "kr") (Some "entertainment") None "한국 연예")))
    as (_ & Hsame & Hrun).
  - reflexivity.
  - intros m url params Hm. simpl in *.
    destruct (Nat.eqb_spec m 3) as [->|_]; [lia | reflexivity].
  - reflexivity.
  - reflexivity.
  - reflexivity.
  - intros st_i Hlen. exists KeyError.
    unfold source_body, fetch_news_body, requests_get. unfold_M.
    simpl in *. rewrite Hlen. reflexivity.
  - intros st_i Hlen.
    unfold source_body, fetch_news_body, requests_get. unfold_M.
    simpl in *. rewrite Hlen. reflexivity.
  - split; [exact Hsame|].
    destruct (Hrun sample_proceeds) as (results & st2 & R & H3 & E & Hsaved).
    assert ((collect_all_news (with_reply_3 malformed_body) sample_fetcher false
               empty_state).1 =
            Return (success "20240501" 1
                      [csv_file sample_fetcher; json_file sample_fetcher])) as E1
      by (vm_compute; reflexivity).
    destruct (_remove_duplicates (concat results)) as [unique|e] eqn:Hu;
      [|rewrite E in E1; discriminate].
    destruct (Hsaved unique eq_refl) as (_ & _ & Hcsv).
    exists results, unique. split; [exact H3|]. split; [exact Hu|]. split.
    + rewrite E in E1. simpl in E1. congruence.
    + apply Hcsv; [discriminate | reflexivity].
Defined.

(** ** Further properties of the fetcher *)

Arguments str_take : simpl never.

(** *** Building the request *)

(** X1. A request never carries both a country and a source list: kr
    and gb win over a source list, a source list wins over any other
    country.  Only kr goes without a language; every other request asks
    for en. *)
Theorem build_params_precedence self config params :
  build_params self config = Return params ->
  (is_Some (params !! "country") <-> ¬ is_Some (params !! "sources")) ∧
  (Config.country config = Some "kr" ∨ Config.country config = Some "gb" ->
     params !! "country" = QStr <$> Config.country config ∧
     params !! "sources" = None) ∧
  (Config.country config ≠ Some "kr" -> Config.country config ≠ Some "gb" ->
     ∀ srcs, Config.sources config = Some srcs ->
       params !! "sources" = Some (QStr srcs) ∧ params !! "country" = None) ∧
  (params !! "language" =
     if decide (Config.country config = Some "kr") then None else Some (QStr "en")).
Proof.
  unfold build_params. intros H.
  destruct config as [country category srcs name]. simpl in *.
  destruct (decide (country = Some "kr")) as [->|Hkr];
    [|destruct (decide (country = Some "gb")) as [->|Hgb];
      [|destruct srcs as [s|]; [|destruct country as [c|]; [|discriminate]]]];
    simpl in H; destruct (truthy_opt category); injection H as <-.
  all: repeat (rewrite ?lookup_insert_eq, ?lookup_empty;
               try rewrite lookup_insert_ne by done).
  all: repeat split; try done; try congruence.
  all: try (intros [x Hx]; discriminate).
  all: try (intros _ [x Hx]; discriminate).
  all: try (intros Hn; exfalso; apply Hn; by eauto).
  all: try (intros [?|?]; congruence).
  all: try (intros; by eauto).
  all: match goal with H : _ ∨ _ |- _ => destruct H; congruence end.
Qed.

Lemma build_params_precedence_witness :
  ∃ params, build_params sample_fetcher mixed_config = Return params ∧
    params !! "sources" = Some (QStr "bbc-news") ∧ params !! "country" = None.
Proof.
  eexists. split; [reflexivity|].
  refine (proj1 (proj2 (proj2 (build_params_precedence sample_fetcher mixed_config _
                                 eq_refl))) _ _ "bbc-news" eq_refl); discriminate.
Defined.

(** X2. A configuration with neither a country nor a source list makes
    no request: the fetch returns the empty list and leaves the call log
    and the files as they were. *)
Theorem fetch_without_country_or_sources w self config st :
  Config.country config = None -> Config.sources config = None ->
  _fetch_news_by_config w self config st = (Return [], st).
Proof.
  intros Hc Hs. unfold _fetch_news_by_config, fetch_news_body, build_params.
  unfold_M. rewrite Hc, Hs. reflexivity.
Qed.

Lemma fetch_without_country_or_sources_witness :
  _fetch_news_by_config sample_world sample_fetcher nowhere_config empty_state =
    (Return [], empty_state).
Proof. apply fetch_without_country_or_sources; reflexivity. Defined.

(** *** The loop over the API articles *)

(** What the loop adds: one article per element that passed the test,
    in order, numbered from [len(articles)]. *)
Lemma api_loop_spec w config raw : ∀ articles out,
  api_loop w config raw articles = Return out ->
  ∃ kept, out = articles ++ kept ∧ (length kept ≤ length raw)%nat ∧
    ∀ k p, kept !! k = Some p ->
      ∃ article, article ∈ raw ∧
        has_title_and_description article = Return true ∧
        api_article w config (length articles + k) article = Return p.
Proof.
  induction raw as [|article raw IH]; intros articles out Hrun; simpl in Hrun.
  - injection Hrun as <-. exists []. rewrite app_nil_r.
    split; [done|]. split; [done|]. intros k p Hk. by rewrite lookup_nil in Hk.
  - apply py_bind_Return in Hrun as (keep & Hkeep & Hrun). destruct keep.
    + apply py_bind_Return in Hrun as (q & Hq & Hrun).
      destruct (IH _ _ Hrun) as (kept & -> & Hlen & Hall).
      exists (q :: kept). rewrite <- app_assoc. split; [done|].
      split; [simpl; lia|].
      intros [|k] p Hk; simpl in Hk.
      * injection Hk as <-. exists article. rewrite Nat.add_0_r.
        split; [by left | done].
      * destruct (Hall k p Hk) as (a & Ha & Hka & Hpa).
        exists a. split; [by right|]. split; [done|].
        rewrite length_app in Hpa. simpl in Hpa.
        by replace (length articles + S k)%nat
          with (length articles + 1 + k)%nat by lia.
    + destruct (IH _ _ Hrun) as (kept & -> & Hlen & Hall).
      exists kept. split; [done|]. split; [simpl; lia|].
      intros k p Hk. destruct (Hall k p Hk) as (a & Ha & Hka & Hpa).
      exists a. split; [by right | done].
Qed.

(** What a fetch returns, read off the reply. *)
Lemma _fetch_news_by_config_reply w self config st params resp data l raw :
  build_params self config = Return params ->
  http w (length (net_log st)) (base_url self +:+ "/top-headlines") params
    = Some resp ->
  status_ok resp = true -> body resp = Some data ->
  get data "articles" (JArr []) = Return l -> iter l = Return raw ->
  (_fetch_news_by_config w self config st).1 =
    Return (match api_loop w config raw [] with
            | Return out => out
            | Raise _ => []
            end).
Proof.
  intros Hb Hh Hok Hbody Hl Hraw.
  unfold _fetch_news_by_config, fetch_news_body, requests_get,
    raise_for_status, response_json.
  unfold_M. rewrite Hb, Hh, Hok, Hbody.
  destruct (get data "totalResults" (JNum 0)) as [t|e] eqn:Ht;
    [|destruct data; discriminate].
  rewrite Hl, Hraw. by destruct (api_loop w config raw []).
Qed.

Lemma _fetch_news_by_config_loop w self config st out st' :
  _fetch_news_by_config w self config st = (Return out, st') ->
  out = [] ∨ ∃ raw, api_loop w config raw [] = Return out.
Proof.
  unfold _fetch_news_by_config, fetch_news_body, requests_get,
    raise_for_status, response_json.
  unfold_M. intros Hrun.
  destruct (build_params self config) as [params|]; [|injection Hrun as <- _; by left].
  destruct (http w (length (net_log st)) _ params) as [resp|];
    [|injection Hrun as <- _; by left].
  destruct (status_ok resp); [|injection Hrun as <- _; by left].
  destruct (body resp) as [data|]; [|injection Hrun as <- _; by left].
  destruct (get data "totalResults" (JNum 0)); simpl in Hrun;
    [|injection Hrun as <- _; by left].
  destruct (get data "articles" (JArr [])) as [l|]; simpl in Hrun;
    [|injection Hrun as <- _; by left].
  destruct (iter l) as [raw|]; simpl in Hrun; [|injection Hrun as <- _; by left].
  destruct (api_loop w config raw []) as [res|] eqn:Hloop;
    injection Hrun as <- _; [|by left].
  right. by exists raw.
Qed.

(** X3. The articles one configuration yields are numbered in order:
    the article at position [k] has the id [name_k], the configuration's
    name as category, its country (or "global") and the clock reading
    taken for position [k]; no two of them share an id. *)
Theorem api_articles_numbered w self config st out st' :
  _fetch_news_by_config w self config st = (Return out, st') ->
  (∀ k p, out !! k = Some p ->
     Article.id p = Config.name config +:+ "_" +:+ pretty k ∧
     Article.category p = Config.name config ∧
     Article.country p = default "global" (Config.country config) ∧
     Article.collected_at p = now w (AtApi (Config.name config) k)) ∧
  NoDup (Article.id <$> out).
Proof.
  intros Hrun.
  assert (∀ k p, out !! k = Some p ->
            ∃ article, api_article w config k article = Return p) as Hbuilt.
  { destruct (_fetch_news_by_config_loop _ _ _ _ _ _ Hrun) as [->|[raw Hloop]].
    - intros k p Hk. by rewrite lookup_nil in Hk.
    - destruct (api_loop_spec _ _ _ _ _ Hloop) as (kept & -> & _ & Hall).
      intros k p Hk. destruct (Hall k p Hk) as (a & _ & _ & Ha). by exists a. }
  assert (∀ k p, out !! k = Some p ->
            Article.id p = Config.name config +:+ "_" +:+ pretty k ∧
            Article.category p = Config.name config ∧
            Article.country p = default "global" (Config.country config) ∧
            Article.collected_at p = now w (AtApi (Config.name config) k)) as Hfields.
  { intros k p Hk. destruct (Hbuilt k p Hk) as (a & Ha).
    unfold api_article in Ha. py_inv Ha. injection Ha as <-. by simpl. }
  split; [done|].
  apply NoDup_alt. intros i j x Hi Hj.
  rewrite list_lookup_fmap in Hi, Hj.
  destruct (out !! i) as [p|] eqn:Hp; [|discriminate].
  destruct (out !! j) as [q|] eqn:Hq; [|discriminate].
  destruct (Hfields i p Hp) as (Hidp & _). destruct (Hfields j q Hq) as (Hidq & _).
  assert (Article.id p = Article.id q) as Hid by (simpl in Hi, Hj; congruence).
  rewrite Hidp, Hidq in Hid.
  do 2 apply append_cancel_l in Hid. by apply (inj pretty) in Hid.
Qed.

Lemma api_articles_numbered_witness :
  ∃ out, (_fetch_news_by_config sample_world sample_fetcher us_config empty_state).1
           = Return out ∧
         NoDup (Article.id <$> out) ∧ length out = 2%nat.
Proof.
  eexists. split; [vm_compute; reflexivity|]. split; [|reflexivity].
  refine (proj2 (api_articles_numbered sample_world sample_fetcher us_config
                   empty_state _
                   (_fetch_news_by_config sample_world sample_fetcher us_config
                      empty_state).2 _)).
  vm_compute. reflexivity.
Defined.

Lemma api_article_raise_any w config n m article e :
  api_article w config n article = Raise e ->
  api_article w config m article = Raise e.
Proof.
  unfold api_article.
  destruct (getitem article "title"); simpl; [|done].
  destruct (getitem article "description"); simpl; [|done].
  destruct (api_content article); simpl; [|done].
  destruct (getitem article "url"); simpl; [|done].
  destruct (getitem article "source") as [source|]; simpl; [|done].
  destruct (getitem source "name"); simpl; [|done].
  destruct (getitem article "publishedAt"); simpl; [|done].
  destruct (get article "author" (JStr "Unknown")); simpl; done.
Qed.

Lemma api_loop_bad w config raw article :
  article ∈ raw ->
  (∃ e, has_title_and_description article = Raise e) ∨
  (has_title_and_description article = Return true ∧
   ∃ e, api_article w config 0 article = Raise e) ->
  ∀ articles, ∃ e, api_loop w config raw articles = Raise e.
Proof.
  intros Hin Hbad. induction raw as [|b raw IH]; intros articles.
  - by apply elem_of_nil in Hin.
  - simpl. apply elem_of_cons in Hin as [<-|Hin].
    + destruct Hbad as [[e ->]|[-> [e He]]]; simpl; [by eauto|].
      rewrite (api_article_raise_any _ _ _ (length articles) _ _ He). by eauto.
    + destruct (has_title_and_description b) as [[|]|]; simpl; eauto.
      destruct (api_article w config (length articles) b); simpl; eauto.
Qed.

(** X4. One element of the body that cannot be handled empties the
    whole configuration: if the title-and-description test raises on it
    (no title, or a title and no description), or it passes the test but
    the article cannot be built (no url, source or date, or a content
    that is not a string), the fetch returns the empty list, dropping
    the well-formed elements too.  The request stays in the call log. *)
Theorem one_bad_article_empties_configuration
    w self config st params resp data l raw article :
  build_params self config = Return params ->
  http w (length (net_log st)) (base_url self +:+ "/top-headlines") params
    = Some resp ->
  status_ok resp = true -> body resp = Some data ->
  get data "articles" (JArr []) = Return l -> iter l = Return raw ->
  article ∈ raw ->
  (∃ e, has_title_and_description article = Raise e) ∨
  (has_title_and_description article = Return true ∧
   ∃ e, api_article w config 0 article = Raise e) ->
  _fetch_news_by_config w self config st =
    (Return [], after_calls st [HttpGet (base_url self +:+ "/top-headlines") params 10]).
Proof.
  intros Hb Hh Hok Hbody Hl Hraw Hin Hbad.
  pose proof (_fetch_news_by_config_reply _ _ _ _ _ _ _ _ _ Hb Hh Hok Hbody Hl Hraw)
    as H1.
  destruct (api_loop_bad w config raw article Hin Hbad []) as [e He].
  rewrite He in H1.
  destruct (_fetch_news_by_config_returns w self config st) as [articles H2].
  rewrite H2 in H1. simpl in H1. injection H1 as ->.
  rewrite H2. unfold api_calls. by rewrite Hb.
Qed.

Lemma one_bad_article_empties_configuration_witness :
  _fetch_news_by_config (reply_world malformed_body) sample_fetcher us_config
    empty_state =
  (Return [],
   after_calls empty_state
     [HttpGet "https://newsapi.org/v2/top-headlines"
        (<["language" := QStr "en"]>
           (<["country" := QStr "us"]>
              (<["pageSize" := QInt 20]> (<["apiKey" := QStr "key"]> ∅)))) 10]).
Proof.
  refine (one_bad_article_empties_configuration (reply_world malformed_body)
            sample_fetcher us_config empty_state _ _ _ _ _
            (JObj [("title", JStr "No link"); ("description", JStr "lost")])
            eq_refl eq_refl eq_refl eq_refl eq_refl eq_refl _ _).
  - apply list_elem_of_further, list_elem_of_here.
  - right. split; [reflexivity|]. exists KeyError. reflexivity.
Defined.

(** The content a built article can have. *)
Lemma api_content_cases article x :
  api_content article = Return x ->
  ∃ c, get article "content" JNull = Return c ∧
    ((truthy c = false ∧ x = "") ∨
     (∃ s, c = JStr s ∧ s ≠ "" ∧ x = str_take 1000 s +:+ "...")).
Proof.
  unfold api_content. intros H.
  destruct (get article "content" JNull) as [c|] eqn:Hc; [|discriminate].
  exists c. split; [done|]. simpl in H.
  destruct (truthy c) eqn:Ht; [|injection H as <-; by left].
  right. destruct article as [| | | | |kv]; try discriminate.
  simpl in Hc, H. destruct (assoc "content" kv) as [v|]; simpl in *;
    injection Hc as <-; [|discriminate].
  destruct v as [| | |s| |]; try discriminate.
  exists s. split; [done|]. split; [by destruct s|].
  unfold slice_to, add_str in H. simpl in H. congruence.
Qed.

Lemma str_take_all n : ∀ s, (String.length s ≤ n)%nat -> str_take n s = s.
Proof.
  induction n as [|n IH]; intros [|c s] Hlen; try reflexivity.
  - simpl in Hlen. lia.
  - change (str_take (S n) (String c s)) with (String c (str_take n s)).
    rewrite IH; [done | simpl in Hlen; lia].
Qed.

(** X5. The stored content of an API article is empty when the body's
    content is missing, [None] or empty; otherwise the body's content is
    a string and the stored one is that string cut to 1000 characters
    with ["..."] appended.  The marker is appended to a short content
    as well, although nothing was cut; the stored content never exceeds
    1003 characters. *)
Theorem api_content_marker w config n article p :
  api_article w config n article = Return p ->
  ∃ c, get article "content" JNull = Return c ∧
    (truthy c = false -> Article.content p = "") ∧
    (truthy c = true ->
       ∃ s, c = JStr s ∧ Article.content p = str_take 1000 s +:+ "..." ∧
         ((String.length s ≤ 1000)%nat -> Article.content p = s +:+ "...")) ∧
    (String.length (Article.content p) ≤ 1003)%nat.
Proof.
  intros Hp. apply api_article_fields in Hp as (_ & _ & Hc & _).
  destruct (api_content_cases _ _ Hc) as (c & Hget & Hcases).
  exists c. split; [done|].
  destruct Hcases as [[Hf Hx]|(s & -> & Hne & Hx)].
  - split; [done|]. split; [congruence|]. rewrite Hx. simpl. lia.
  - split; [by destruct s|]. split.
    + intros _. exists s. split; [done|]. split; [done|].
      intros Hlen. by rewrite Hx, str_take_all.
    + rewrite Hx, str_length_app, str_take_length.
      change (String.length "...") with 3%nat. lia.
Qed.

Lemma api_content_marker_witness :
  ∃ p, api_article sample_world us_config 0 short_item = Return p ∧
       Article.content p = "abc...".
Proof.
  destruct (api_article sample_world us_config 0 short_item) as [p|e] eqn:E;
    [|vm_compute in E; discriminate].
  exists p. split; [reflexivity|].
  destruct (api_content_marker _ _ _ _ _ E) as (c & Hc & _ & Hs & _).
  vm_compute in Hc. injection Hc as <-.
  destruct (Hs eq_refl) as (s & Hcs & _ & Hshort).
  injection Hcs as <-. apply Hshort. vm_compute. lia.
Defined.

(** X6. An element whose title is present but empty, or whose title is
    not empty and whose description is present but empty, is passed
    over and leaves no trace, whatever else it lacks. *)
Theorem empty_title_or_description_is_skipped w config article before after articles :
  (∃ t, getitem article "title" = Return t ∧
     (truthy t = false ∨
      ∃ d, getitem article "description" = Return d ∧ truthy d = false)) ->
  api_loop w config (before ++ article :: after) articles =
  api_loop w config (before ++ after) articles.
Proof.
  intros (t & Ht & Hcase). apply api_loop_skip.
  unfold has_title_and_description. rewrite Ht. simpl.
  destruct Hcase as [->|(d & Hd & Hdf)]; [done|].
  destruct (truthy t); [|done]. rewrite Hd. simpl. by rewrite Hdf.
Qed.

Lemma empty_title_or_description_is_skipped_witness :
  api_loop sample_world us_config
    ([] ++ JObj [("title", JStr "")]
        :: [sample_item "First" "one" "https://a.example/1"]) [] =
  api_loop sample_world us_config
    ([] ++ [sample_item "First" "one" "https://a.example/1"]) [].
Proof.
  apply empty_title_or_description_is_skipped.
  exists (JStr ""). split; [reflexivity|]. left. reflexivity.
Defined.

(** *** The feeds *)

Lemma _fetch_rss_news_loop w self rss_config st out st' :
  _fetch_rss_news w self rss_config st = (Return out, st') ->
  out = [] ∨
  ∃ entries, feeds w (length (net_log st)) (RssConfig.url rss_config) = Some entries ∧
    rss_loop w rss_config (take 10 entries) [] = Return out.
Proof.
  unfold _fetch_rss_news, fetch_rss_body, feedparser_parse. unfold_M. intros Hrun.
  destruct (feeds w (length (net_log st)) (RssConfig.url rss_config))
    as [entries|]; [|injection Hrun as <- _; by left].
  destruct (rss_loop w rss_config (take 10 entries) []) as [res|] eqn:Hloop;
    injection Hrun as <- _; [|by left].
  right. by exists entries.
Qed.

Lemma rss_article_meta w rss_config n entry p :
  rss_article w rss_config n entry = Return p ->
  Article.id p = RssConfig.name rss_config +:+ "_" +:+ pretty n ∧
  Article.category p = RssConfig.name rss_config +:+ " RSS" ∧
  Article.source_name p = JStr (RssConfig.name rss_config) ∧
  Article.country p = RssConfig.country rss_config.
Proof.
  unfold rss_article, getattr. intros H.
  destruct (Entry.title entry) as [t|]; [|discriminate]. simpl in H.
  destruct (rss_content entry) as [c|]; [|discriminate]. simpl in H.
  destruct (Entry.link entry) as [l|]; [|discriminate]. simpl in H.
  injection H as <-. repeat split; reflexivity.
Qed.

(** X7. A feed yields at most ten articles.  The article at position
    [k] has the id [name_k], the category [name RSS], the feed's name as
    source and the feed's country, and its url is a string; no two
    articles of a feed share an id. *)
Theorem rss_articles_numbered w self rss_config st out st' :
  _fetch_rss_news w self rss_config st = (Return out, st') ->
  (length out ≤ 10)%nat ∧
  (∀ k p, out !! k = Some p ->
     Article.id p = RssConfig.name rss_config +:+ "_" +:+ pretty k ∧
     Article.category p = RssConfig.name rss_config +:+ " RSS" ∧
     Article.source_name p = JStr (RssConfig.name rss_config) ∧
     Article.country p = RssConfig.country rss_config ∧
     ∃ l, Article.url p = JStr l) ∧
  NoDup (Article.id <$> out).
Proof.
  intros Hrun.
  assert ((length out ≤ 10)%nat ∧
          ∀ k p, out !! k = Some p ->
            ∃ entry, rss_article w rss_config k entry = Return p) as [Hlen Hbuilt].
  { destruct (_fetch_rss_news_loop _ _ _ _ _ _ Hrun) as [->|(entries & _ & Hloop)].
    - split; [simpl; lia|]. intros k p Hk. by rewrite lookup_nil in Hk.
    - destruct (rss_loop_spec _ _ _ _ _ Hloop) as (kept & -> & Hl & Hall). simpl.
      split; [rewrite Hl, length_take; lia|].
      intros k p Hk.
      destruct (take 10 entries !! k) as [entry|] eqn:He.
      + destruct (Hall k entry He) as (q & Hq & Hb). exists entry.
        simpl in Hk, Hb. congruence.
      + apply lookup_ge_None in He. apply lookup_lt_Some in Hk. lia. }
  assert (∀ k p, out !! k = Some p ->
            Article.id p = RssConfig.name rss_config +:+ "_" +:+ pretty k ∧
            Article.category p = RssConfig.name rss_config +:+ " RSS" ∧
            Article.source_name p = JStr (RssConfig.name rss_config) ∧
            Article.country p = RssConfig.country rss_config ∧
            ∃ l, Article.url p = JStr l) as Hfields.
  { intros k p Hk. destruct (Hbuilt k p Hk) as (entry & He).
    destruct (rss_article_meta _ _ _ _ _ He) as (? & ? & ? & ?).
    destruct (rss_article_fields _ _ _ _ _ He) as (t & l & _ & _ & _ & Hu & _).
    repeat split; try done. by exists l. }
  split; [done|]. split; [done|].
  apply NoDup_alt. intros i j x Hi Hj. rewrite list_lookup_fmap in Hi, Hj.
  destruct (out !! i) as [p|] eqn:Hp; [|discriminate].
  destruct (out !! j) as [q|] eqn:Hq; [|discriminate].
  destruct (Hfields i p Hp) as (Hidp & _). destruct (Hfields j q Hq) as (Hidq & _).
  assert (Article.id p = Article.id q) as Hid by (simpl in Hi, Hj; congruence).
  rewrite Hidp, Hidq in Hid.
  do 2 apply append_cancel_l in Hid. by apply (inj pretty) in Hid.
Qed.

Lemma rss_articles_numbered_witness :
  ∃ out, (_fetch_rss_news (feed_world (replicate 12 sample_entry)) sample_fetcher
            feed_config empty_state).1 = Return out ∧
         (length out ≤ 10)%nat.
Proof.
  eexists. split; [vm_compute; reflexivity|].
  refine (proj1 (rss_articles_numbered (feed_world (replicate 12 sample_entry))
                   sample_fetcher feed_config empty_state _
                   (_fetch_rss_news (feed_world (replicate 12 sample_entry))
                      sample_fetcher feed_config empty_state).2 _)).
  vm_compute. reflexivity.
Defined.

Lemma rss_loop_raises w rss_config entries : ∀ articles,
  Exists (fun entry => ¬ buildable entry) entries ->
  ∃ e, rss_loop w rss_config entries articles = Raise e.
Proof.
  induction entries as [|entry entries IH]; intros articles Hex; simpl.
  - by apply Exists_nil in Hex.
  - destruct (rss_article w rss_config (length articles) entry) as [p|e] eqn:Hp;
      simpl; [|by eauto].
    apply Exists_cons in Hex as [Hbad|Hex]; [|by apply IH].
    exfalso. apply Hbad. apply (rss_article_buildable w rss_config (length articles)).
    by exists p.
Qed.

(** X8. A feed is taken whole or not at all.  An entry can be built
    exactly when it has a title and a link and its content, if present,
    is not the empty list.  If each of the first ten entries can be
    built, the feed yields one article for each of them; if one of them
    cannot, the feed yields nothing, whatever the other entries are.
    Entries after the tenth play no part. *)
Theorem feed_is_all_or_nothing w self rss_config st entries :
  feeds w (length (net_log st)) (RssConfig.url rss_config) = Some entries ->
  (∀ n entry, (∃ p, rss_article w rss_config n entry = Return p) ↔ buildable entry) ∧
  (Forall buildable (take 10 entries) ->
     ∃ out, (_fetch_rss_news w self rss_config st).1 = Return out ∧
       length out = Nat.min 10 (length entries)) ∧
  (Exists (fun entry => ¬ buildable entry) (take 10 entries) ->
     (_fetch_rss_news w self rss_config st).1 = Return []).
Proof.
  intros Hfeed. split; [intros n entry; apply rss_article_buildable|].
  unfold _fetch_rss_news, fetch_rss_body, feedparser_parse. unfold_M.
  rewrite Hfeed. split.
  - intros Hall.
    destruct (rss_loop_returns w rss_config _ [] Hall) as [out Hout].
    rewrite Hout. exists out. split; [done|].
    destruct (rss_loop_spec _ _ _ _ _ Hout) as (kept & -> & Hl & _).
    simpl. by rewrite Hl, length_take.
  - intros Hex. by destruct (rss_loop_raises w rss_config _ [] Hex) as [e ->].
Qed.

Lemma feed_is_all_or_nothing_witness :
  (_fetch_rss_news (feed_world [sample_entry; hollow_entry]) sample_fetcher
     feed_config empty_state).1 = Return [].
Proof.
  refine (proj2 (proj2 (feed_is_all_or_nothing
                          (feed_world [sample_entry; hollow_entry]) sample_fetcher
                          feed_config empty_state [sample_entry; hollow_entry]
                          eq_refl)) _).
  apply Exists_cons_tl, Exists_cons_hd. intros (_ & _ & H). by apply H.
Defined.

(** *** Removing duplicates *)

Lemma url_key_unique (unique : list Article.t) b c :
  NoDup (url_key <$> unique) -> b ∈ unique -> c ∈ unique ->
  url_key b = url_key c -> b = c.
Proof.
  intros Hnd Hb Hc Hk.
  apply list_elem_of_lookup in Hb as [i Hi]. apply list_elem_of_lookup in Hc as [j Hj].
  assert (i = j) as ->; [|congruence].
  apply (proj1 (NoDup_alt (url_key <$> unique)) Hnd i j (url_key b));
    rewrite list_lookup_fmap; [by rewrite Hi | by rewrite Hj, Hk].
Qed.

(** X9. When the input is one list followed by another, an article of
    the first list beats every article of the second with the same url:
    the only article kept under that url comes from the first list.  In
    [collect_all_news] the first list is what the API gave and the
    second what the feeds gave. *)
Theorem earlier_list_wins xs ys unique a b :
  _remove_duplicates (xs ++ ys) = Return unique ->
  b ∈ xs -> a ∈ ys -> url_key a = url_key b ->
  ∃ b', b' ∈ unique ∧ b' ∈ xs ∧ url_key b' = url_key a ∧
    ∀ c, c ∈ unique -> url_key c = url_key a -> c = b'.
Proof.
  intros Hd Hb Ha Hk.
  destruct (_remove_duplicates_spec _ _ Hd) as (Hnd & _ & _ & Hfw).
  destruct (Hfw a) as (l1 & b' & l2 & Hsplit & Hkb' & Hl1 & Hin).
  { apply elem_of_app. by right. }
  exists b'. split; [done|]. split; [|split; [done|]].
  - apply list_elem_of_lookup in Hb as [i Hi].
    destruct (decide (length l1 < length xs)%nat) as [Hlt|Hge].
    + apply list_elem_of_lookup. exists (length l1).
      rewrite <- (lookup_app_l xs ys) by done. rewrite Hsplit.
      by rewrite list_lookup_middle.
    + exfalso. pose proof (lookup_lt_Some _ _ _ Hi) as Hi'.
      assert (l1 !! i = Some b) as Hl1i.
      { rewrite <- (lookup_app_l l1 (b' :: l2)) by lia. rewrite <- Hsplit.
        by rewrite lookup_app_l. }
      apply (proj1 (Forall_forall _ _) Hl1 b); [|done].
      apply list_elem_of_lookup. by exists i.
  - intros c Hc Hkc. apply (url_key_unique unique); try done. congruence.
Qed.

Lemma earlier_list_wins_witness :
  ∃ b', b' ∈ [api_copy] ∧ b' ∈ [api_copy] ∧ url_key b' = url_key feed_copy ∧
    ∀ c, c ∈ [api_copy] -> url_key c = url_key feed_copy -> c = b'.
Proof.
  apply (earlier_list_wins [api_copy] [feed_copy] [api_copy] feed_copy api_copy).
  - reflexivity.
  - apply list_elem_of_here.
  - apply list_elem_of_here.
  - reflexivity.
Defined.

Lemma dedup_loop_fresh articles : ∀ seen_urls unique,
  NoDup (url_key <$> articles) ->
  Forall (fun a => is_Some (url_key a)) articles ->
  (∀ a k, a ∈ articles -> url_key a = Some k -> k ∉ seen_urls) ->
  dedup_loop articles seen_urls unique = Return (unique ++ articles).
Proof.
  induction articles as [|a articles IH]; intros seen unique Hnd Hall Hfresh; simpl.
  - by rewrite app_nil_r.
  - apply Forall_cons in Hall as [[k Hk] Hall].
    rewrite fmap_cons in Hnd. apply NoDup_cons in Hnd as [Hnotin Hnd].
    assert (hash_key (Article.url a) = Return k) as ->.
    { unfold url_key in Hk. destruct (hash_key (Article.url a)); congruence. }
    simpl. destruct (decide (k ∈ seen)) as [Hin|_].
    + exfalso. apply (Hfresh a k); [by left | done | done].
    + rewrite IH; [by rewrite <- app_assoc | done | done |].
      intros a' k' Ha' Hk'. apply not_elem_of_union. split.
      * intros Heq. apply elem_of_singleton in Heq as ->. apply Hnotin.
        rewrite Hk, <- Hk'. by apply list_elem_of_fmap_2.
      * apply (Hfresh a' k'); [by right | done].
Qed.

(** X10. Removing duplicates changes nothing in a list that has none,
    and so doing it twice gives what doing it once gives. *)
Theorem remove_duplicates_idempotent :
  (∀ articles,
     NoDup (url_key <$> articles) ->
     Forall (fun a => is_Some (url_key a)) articles ->
     _remove_duplicates articles = Return articles) ∧
  (∀ articles unique,
     _remove_duplicates articles = Return unique ->
     _remove_duplicates unique = Return unique).
Proof.
  assert (∀ articles,
            NoDup (url_key <$> articles) ->
            Forall (fun a => is_Some (url_key a)) articles ->
            _remove_duplicates articles = Return articles) as Hfix.
  { intros articles Hnd Hall. unfold _remove_duplicates.
    rewrite (dedup_loop_fresh articles ∅ []); [done | done | done |].
    intros a k _ _. apply not_elem_of_empty. }
  split; [done|]. intros articles unique Hd.
  destruct (dedup_loop_spec _ [] ∅ [] unique Hd) as (Hnd & Hsub & Hall & _).
  { intros k. split; [set_solver|]. intros (b & Hb & _). by apply elem_of_nil in Hb. }
  { constructor. }
  { constructor. }
  { constructor. }
  { intros a Ha. by apply elem_of_nil in Ha. }
  apply Hfix; [done|]. simpl in Hsub, Hall.
  apply Forall_forall. intros a Ha.
  apply (proj1 (Forall_forall _ _) Hall a). by eapply elem_of_sublist.
Qed.

Lemma remove_duplicates_idempotent_witness :
  _remove_duplicates [api_copy; feed_copy] = Return [api_copy] ∧
  _remove_duplicates [api_copy] = Return [api_copy].
Proof.
  split; [reflexivity|].
  apply (proj2 remove_duplicates_idempotent [api_copy; feed_copy]). reflexivity.
Defined.

(** *** The whole run *)

Lemma not_proceeds_state w self force_update st :
  ¬ proceeds self force_update st ->
  ∃ r, collect_all_news w self force_update st = (Return r, st).
Proof.
  intros Hno.
  destruct (decide (today_data self st)) as [Hd|Hd], force_update eqn:Hf,
    (truthy_opt (api_key self)) eqn:Hk.
  all: try (exfalso; apply Hno; unfold proceeds; by eauto).
  all: try (rewrite collect_all_news_key_missing by eauto; by eauto).
  all: rewrite collect_all_news_already_exists by done; by eauto.
Qed.

Lemma proceeds_dec self force_update st :
  proceeds self force_update st ∨ ¬ proceeds self force_update st.
Proof.
  unfold proceeds.
  destruct (decide (today_data self st)) as [Hd|Hd], force_update,
    (truthy_opt (api_key self)); try (left; by eauto).
  all: right; intros [[?|?] ?]; done.
Qed.

Lemma concat_singletons {A B : Type} (f : A -> B) (l : list A) :
  concat ((fun x => [f x]) <$> l) = f <$> l.
Proof.
  induction l as [|a l IH]; [done|].
  rewrite !fmap_cons. simpl. by rewrite IH.
Qed.

(** X11. The calls of a run that passes the guards are fixed in
    advance: twelve GETs to the top-headlines endpoint with timeout 10,
    then one parse per feed in list order.  No reply, error or empty
    result makes the run repeat a call, skip one or stop early. *)
Theorem calls_are_fixed w w' self force_update st :
  proceeds self force_update st ->
  net_log (collect_all_news w self force_update st).2 =
    net_log (collect_all_news w' self force_update st).2 ∧
  ∃ gets,
    length gets = 12%nat ∧
    Forall (fun c => ∃ params,
              c = HttpGet (base_url self +:+ "/top-headlines") params 10) gets ∧
    net_log (collect_all_news w self force_update st).2 =
      net_log st ++ gets ++
        ((fun r => FeedParse (RssConfig.url r)) <$> rss_sources self).
Proof.
  intros Hgo. rewrite !proceeds_log by done. split; [done|].
  exists (concat (api_calls self <$> countries_and_categories)).
  split; [reflexivity|]. split.
  - apply Forall_forall. intros c Hc.
    apply elem_of_concat_fmap in Hc as (config & Hin & Hc).
    destruct (build_params_fixed self config Hin) as (params & Hb & _).
    unfold api_calls in Hc. rewrite Hb in Hc.
    apply list_elem_of_singleton in Hc. by exists params.
  - unfold expected_calls. by rewrite concat_singletons.
Qed.

Lemma calls_are_fixed_witness :
  net_log (collect_all_news sample_world sample_fetcher false empty_state).2 =
  net_log (collect_all_news readonly_world sample_fetcher false empty_state).2.
Proof.
  exact (proj1 (calls_are_fixed sample_world readonly_world sample_fetcher false
                  empty_state sample_proceeds)).
Defined.

(** X12. A run touches no file but the two of the day: every other
    path holds after the run what it held before, whatever the replies
    and however the writes end. *)
Theorem other_files_untouched w self force_update st path :
  path ≠ csv_file self -> path ≠ json_file self ->
  fs (collect_all_news w self force_update st).2 !! path = fs st !! path.
Proof.
  intros Hc Hj. destruct (proceeds_dec self force_update st) as [Hgo|Hno].
  - destruct (collect_all_news_run w self force_update st Hgo)
      as (pc & pf & st1 & _ & _ & ->).
    destruct (_remove_duplicates _) as [unique|e]; [|done]. simpl.
    destruct (_save_to_files_spec w self unique (after_calls st (expected_calls self)))
      as (s' & -> & _ & Hfs). simpl.
    destruct (disk w (csv_file self)) as [|[|]],
      (disk w (json_file self)) as [|[|]]; rewrite Hfs; simpl;
      repeat (rewrite lookup_insert_ne by done); done.
  - by destruct (not_proceeds_state w self force_update st Hno) as [r ->].
Qed.

Lemma other_files_untouched_witness :
  fs (collect_all_news sample_world sample_fetcher true stale_state).2
    !! "notes.txt" = Some Truncated.
Proof.
  rewrite (other_files_untouched sample_world sample_fetcher true stale_state
             "notes.txt"); [reflexivity | discriminate | discriminate].
Defined.

Lemma dedup_loop_raise articles : ∀ seen_urls unique e,
  dedup_loop articles seen_urls unique = Raise e ->
  e = TypeError ∧
  ∃ a, a ∈ articles ∧
    ((∃ l, Article.url a = JArr l) ∨ (∃ kv, Article.url a = JObj kv)).
Proof.
  induction articles as [|a articles IH]; intros seen unique e H; simpl in H;
    [discriminate|].
  destruct (Article.url a) as [| | | |l|kv] eqn:Hu; simpl in H.
  all: try (destruct (decide (_ ∈ seen));
            destruct (IH _ _ _ H) as (He & a' & Ha' & Hcase);
            (split; [done|]); exists a'; (split; [by right | done])).
  - injection H as <-. split; [done|]. exists a. split; [by left|]. left. by eauto.
  - injection H as <-. split; [done|]. exists a. split; [by left|]. right. by eauto.
Qed.

Lemma _fetch_rss_news_urls w self rss_config st out st' p :
  _fetch_rss_news w self rss_config st = (Return out, st') -> p ∈ out ->
  ∃ l, Article.url p = JStr l.
Proof.
  intros Hrun Hp.
  destruct (_fetch_rss_news_loop _ _ _ _ _ _ Hrun) as [->|(entries & _ & Hloop)];
    [by apply elem_of_nil in Hp|].
  destruct (rss_loop_spec _ _ _ _ _ Hloop) as (kept & -> & Hl & Hall).
  simpl in Hp. apply list_elem_of_lookup in Hp as [k Hk].
  destruct (take 10 entries !! k) as [entry|] eqn:He.
  - destruct (Hall k entry He) as (q & Hq & Hb).
    destruct (rss_article_fields _ _ _ _ _ Hb) as (t & l & _ & _ & _ & Hu & _).
    exists l. congruence.
  - apply lookup_ge_None in He. apply lookup_lt_Some in Hk. lia.
Qed.

Lemma runs_each_rss_urls w self rss st per_feed st' :
  runs_each (_fetch_rss_news w self) rss st per_feed st' ->
  ∀ p, p ∈ concat per_feed -> ∃ l, Article.url p = JStr l.
Proof.
  induction 1 as [st|c cs st articles st1 results st2 E R IH]; intros p Hp; simpl in Hp.
  - by apply elem_of_nil in Hp.
  - apply elem_of_app in Hp as [Hp|Hp]; [|by apply IH].
    by eapply _fetch_rss_news_urls.
Qed.

(** X13. [collect_all_news] raises in one case only: an API article
    that passed the test has a list or a dict as url, on which the set
    lookup of [_remove_duplicates] raises [TypeError] outside every
    [try].  By then all calls have been made, and nothing is written:
    the articles of all sources are lost.  The feeds cannot cause it,
    their urls are strings. *)
Theorem run_raises_only_on_unhashable_url w self force_update st e st' :
  collect_all_news w self force_update st = (Raise e, st') ->
  e = TypeError ∧ fs st' = fs st ∧
  net_log st' = net_log st ++ expected_calls self ∧
  ∃ per_config st1 a,
    runs_each (_fetch_news_by_config w self) countries_and_categories st
      per_config st1 ∧
    a ∈ concat per_config ∧
    ((∃ l, Article.url a = JArr l) ∨ (∃ kv, Article.url a = JObj kv)).
Proof.
  intros Hrun. destruct (proceeds_dec self force_update st) as [Hgo|Hno];
    [|destruct (not_proceeds_state w self force_update st Hno) as [r Hr];
      rewrite Hr in Hrun; discriminate].
  destruct (collect_all_news_run w self force_update st Hgo)
    as (pc & pf & st1 & R1 & R2 & E).
  rewrite Hrun in E.
  destruct (_remove_duplicates (concat pc ++ concat pf)) as [unique|e'] eqn:Hd;
    [discriminate|].
  injection E as -> ->.
  destruct (dedup_loop_raise _ _ _ _ Hd) as (-> & a & Ha & Hcase).
  split; [done|]. split; [done|]. split; [done|].
  exists pc, st1, a. split; [done|]. split; [|done].
  apply elem_of_app in Ha as [Ha|Ha]; [done|].
  destruct (runs_each_rss_urls _ _ _ _ _ _ R2 a Ha) as [l Hl].
  destruct Hcase as [[? ?]|[? ?]]; congruence.
Qed.

Lemma run_raises_only_on_unhashable_url_witness :
  collect_all_news (reply_world unhashable_body) sample_fetcher false empty_state =
    (Raise TypeError,
     (collect_all_news (reply_world unhashable_body) sample_fetcher false
        empty_state).2) ∧
  fs (collect_all_news (reply_world unhashable_body) sample_fetcher false
        empty_state).2 = ∅.
Proof.
  assert (collect_all_news (reply_world unhashable_body) sample_fetcher false
            empty_state =
          (Raise TypeError,
           (collect_all_news (reply_world unhashable_body) sample_fetcher false
              empty_state).2)) as E by (vm_compute; reflexivity).
  split; [exact E|].
  exact (proj1 (proj2 (run_raises_only_on_unhashable_url _ _ _ _ _ _ E))).
Defined.

(** X14. What a run reports is what it stored: when the result is the
    success result and both writes complete, the CSV file and the JSON
    file hold the same list of articles, and the count of the result,
    the count in the JSON file and the length of that list are one
    number; the date of the result and of the JSON file is the day's. *)
Theorem result_matches_files w settings today force_update st date n files st' :
  collect_all_news w (__init__ settings today) force_update st =
    (Return (success date n files), st') ->
  disk w (csv_file (__init__ settings today)) = WriteOk ->
  disk w (json_file (__init__ settings today)) = WriteOk ->
  ∃ unique,
    fs st' !! csv_file (__init__ settings today) = Some (CsvFile unique) ∧
    fs st' !! json_file (__init__ settings today) =
      Some (JsonFile today (now w AtSave) n unique) ∧
    length unique = n ∧ date = today ∧
    files = [csv_file (__init__ settings today); json_file (__init__ settings today)].
Proof.
  intros Hrun Hc Hj. pose proof (init_paths_differ settings today) as Hne.
  set (self := __init__ settings today) in *.
  pose proof (success_proceeds _ _ _ _ _ _ Hrun eq_refl) as Hgo.
  destruct (collect_all_news_run w self force_update st Hgo)
    as (pc & pf & st1 & _ & _ & E).
  rewrite Hrun in E.
  destruct (_remove_duplicates (concat pc ++ concat pf)) as [unique|e];
    [|discriminate].
  injection E as -> -> -> ->.
  destruct (_save_to_files_spec w self unique (after_calls st (expected_calls self)))
    as (s' & -> & _ & Hfs). simpl. rewrite Hc, Hj in Hfs. rewrite Hfs.
  exists unique. repeat split; try done.
  - rewrite lookup_insert_ne by done. by rewrite lookup_insert_eq.
  - by rewrite lookup_insert_eq.
Qed.

Lemma result_matches_files_witness :
  ∃ unique,
    fs (collect_all_news sample_world sample_fetcher false empty_state).2
      !! csv_file sample_fetcher = Some (CsvFile unique) ∧
    length unique = 1%nat.
Proof.
  destruct (result_matches_files sample_world sample_settings "20240501" false
              empty_state "20240501" 1
              [csv_file sample_fetcher; json_file sample_fetcher]
              (collect_all_news sample_world sample_fetcher false empty_state).2)
    as (unique & Hcsv & _ & Hlen & _).
  - vm_compute. reflexivity.
  - reflexivity.
  - reflexivity.
  - exists unique. split; [exact Hcsv | exact Hlen].
Defined.

(** X15. A failed write is not rolled back.  If the CSV write
    completes and the JSON write raises without touching its file, a
    JSON file that was there before stays as it was, next to the new CSV
    file; the run still reports success, and since both files exist the
    next call without [force_update] answers "already exists" and leaves
    the outdated JSON file in place. *)
Theorem json_failure_leaves_stale_pair w settings today force_update st r st' old :
  collect_all_news w (__init__ settings today) force_update st = (Return r, st') ->
  status r = "success" ->
  disk w (csv_file (__init__ settings today)) = WriteOk ->
  disk w (json_file (__init__ settings today)) = WriteRaises false ->
  fs st !! json_file (__init__ settings today) = Some old ->
  (∃ unique,
     r = success today (length unique)
           [csv_file (__init__ settings today); json_file (__init__ settings today)] ∧
     fs st' !! csv_file (__init__ settings today) = Some (CsvFile unique)) ∧
  fs st' !! json_file (__init__ settings today) = Some old ∧
  collect_all_news w (__init__ settings today) false st' =
    (Return (already_exists today), st').
Proof.
  intros Hrun Hs Hc Hj Hold. pose proof (init_paths_differ settings today) as Hne.
  set (self := __init__ settings today) in *.
  pose proof (success_proceeds _ _ _ _ _ _ Hrun Hs) as Hgo.
  destruct (collect_all_news_run w self force_update st Hgo)
    as (pc & pf & st1 & _ & _ & E).
  rewrite Hrun in E.
  destruct (_remove_duplicates (concat pc ++ concat pf)) as [unique|e];
    [|discriminate].
  injection E as Er Est. subst r st'.
  destruct (_save_to_files_spec w self unique (after_calls st (expected_calls self)))
    as (s' & -> & _ & Hfs). simpl in *. rewrite Hc, Hj in Hfs.
  assert (fs s' !! csv_file self = Some (CsvFile unique)) as Hcsv
    by (by rewrite Hfs, lookup_insert_eq).
  assert (fs s' !! json_file self = Some old) as Hjson
    by (rewrite Hfs, lookup_insert_ne by done; done).
  split; [by exists unique|]. split; [done|].
  apply (collect_all_news_already_exists w self s').
  split; [rewrite Hcsv | rewrite Hjson]; by eauto.
Qed.

Lemma json_failure_leaves_stale_pair_witness :
  fs (collect_all_news csv_only_world sample_fetcher true stale_state).2
    !! json_file sample_fetcher = Some (JsonFile "20240501" "early" 0 []) ∧
  (collect_all_news csv_only_world sample_fetcher false
     (collect_all_news csv_only_world sample_fetcher true stale_state).2).1 =
    Return (already_exists "20240501").
Proof.
  destruct (json_failure_leaves_stale_pair csv_only_world sample_settings "20240501"
              true stale_state
              (success "20240501" 1 [csv_file sample_fetcher; json_file sample_fetcher])
              (collect_all_news csv_only_world sample_fetcher true stale_state).2
              (JsonFile "20240501" "early" 0 []))
    as (_ & Hjson & Hnext).
  - vm_compute. reflexivity.
  - reflexivity.
  - reflexivity.
  - reflexivity.
  - reflexivity.
  - split; [exact Hjson|]. fold sample_fetcher in Hnext. by rewrite Hnext.
Defined.

(** X16. The text of a feed article.  The description is the summary
    (or, without one, the title) cut to 200 characters with ["..."]
    appended, also when nothing was cut.  The content is empty when the
    entry has no content; otherwise it is the value of the first content
    item alone, cut to 1000 characters with ["..."] appended, and the
    bare marker when that item has no value.  Later content items are
    not read. *)
Theorem rss_text_fields w rss_config n entry p :
  rss_article w rss_config n entry = Return p ->
  (∃ t, Entry.title entry = Some t ∧
     Article.description p =
       JStr (str_take 200 (default t (Entry.summary entry)) +:+ "...")) ∧
  (Entry.content entry = None -> Article.content p = "") ∧
  (∀ first others, Entry.content entry = Some (first :: others) ->
     Article.content p = str_take 1000 (default "" first) +:+ "...") ∧
  (String.length (Article.content p) ≤ 1003)%nat.
Proof.
  intros Hp.
  destruct (rss_article_fields _ _ _ _ _ Hp) as (t & l & Ht & _ & _ & _ & Hd).
  split; [by exists t|].
  unfold rss_article, rss_content, getattr in Hp. rewrite Ht in Hp. simpl in Hp.
  destruct (Entry.content entry) as [[|first others]|]; simpl in Hp; try discriminate.
  - destruct (Entry.link entry); [|discriminate]. simpl in Hp. injection Hp as <-.
    simpl. split; [done|]. split; [by intros ? ? [= <- <-]|].
    rewrite str_length_app, str_take_length.
    change (String.length "...") with 3%nat. lia.
  - destruct (Entry.link entry); [|discriminate]. simpl in Hp. injection Hp as <-.
    simpl. split; [done|]. split; [done|]. lia.
Qed.

Lemma rss_text_fields_witness :
  ∃ p, rss_article sample_world feed_config 0 valueless_entry = Return p ∧
       Article.content p = "...".
Proof.
  destruct (rss_article sample_world feed_config 0 valueless_entry) as [p|e] eqn:E;
    [|vm_compute in E; discriminate].
  exists p. split; [reflexivity|].
  destruct (rss_text_fields _ _ _ _ _ E) as (_ & _ & Hc & _).
  exact (Hc None [Some "second"] eq_refl).
Defined.
